(** * Stabilizer configuration scripts: a Rocq model

  Two Python files are covered:

  - [py/stabilizer/lazyplot.py]: reads a one-column CSV trace and plots it
    against a frequency axis ([Lazyplot]);
  - [scripts/stabilizer_interface_sr/run_conf.py]: a configuration script
    that drives the [stabilizer_if] interface; the settings it gives the
    live plot are in [RunConf].

  [stabilizer_if] itself (stream-length negotiation, PID coefficient
  synthesis, live plot) is imported by the script but its code is not part
  of the files at hand; those three components are modelled from the
  written specification ([StreamNegotiator], [CoefficientSynthesizer],
  [LivePlotter]).

  Numbers.  [float(str)] is modelled with its rounding: the double nearest
  to the literal, as a rational.  The arithmetic of [numpy.linspace] and
  of the components modelled from the specification is exact, on
  rationals.

  Text.  A string is a sequence of code points below 256; code points
  above are outside the model. *)

From Stdlib Require Import ZArith QArith Qround Qabs Qminmax.
From Stdlib Require Import List String Ascii Bool Lia Lqa.
Import ListNotations.

Local Open Scope Q_scope.

(* ================================================================== *)
(** * Python's [float(str)] *)
(* ================================================================== *)

Module PyFloat.

(** The value of a Python float: a double as the rational it stands for,
    in lowest terms; the negative zero; an infinity; or a NaN (whose sign
    and payload are not kept). *)
Inductive pyfloat :=
| Finite (q : Q)
| NegZero
| Infinity (negative : bool)
| NaN.

Definition is_digit (c : ascii) : bool :=
  let n := nat_of_ascii c in (48 <=? n)%nat && (n <=? 57)%nat.

Definition digit_value (c : ascii) : Z := Z.of_nat (nat_of_ascii c - 48).

(** The white space that [float] drops at both ends of its text
    ([Py_ISSPACE]): tab, line feed, vertical tab, form feed, carriage
    return and the space. *)
Definition is_space (c : ascii) : bool :=
  let n := nat_of_ascii c in
  ((9 <=? n)%nat && (n <=? 13)%nat) || (n =? 32)%nat.

(** A character of a text is a code point below 256.  Above the ASCII
    range two of them are white space to Python ([str.isspace]): the next
    line control 0x85 and the no-break space 0xa0; none is a decimal
    digit. *)
Definition is_unicode_space (c : ascii) : bool :=
  let n := nat_of_ascii c in (n =? 133)%nat || (n =? 160)%nat.

Definition is_ascii (c : ascii) : bool := (nat_of_ascii c <? 128)%nat.

(** What [float] does to a text that is not all ASCII before it parses it:
    characters below 127 stay, white space becomes a space, and at the
    first other character the text ends in a question mark. *)
Fixpoint transform (s : list ascii) : list ascii :=
  match s with
  | [] => []
  | c :: s' =>
      if (nat_of_ascii c <? 127)%nat then c :: transform s'
      else if is_unicode_space c then " "%char :: transform s'
      else ["?"%char]
  end.

Definition to_ascii (s : list ascii) : list ascii :=
  if forallb is_ascii s then s else transform s.

Definition lower (c : ascii) : ascii :=
  let n := nat_of_ascii c in
  if (65 <=? n)%nat && (n <=? 90)%nat then ascii_of_nat (n + 32) else c.

Fixpoint lstrip (s : list ascii) : list ascii :=
  match s with
  | c :: s' => if is_space c then lstrip s' else s
  | [] => []
  end.

Definition strip (s : list ascii) : list ascii :=
  rev (lstrip (rev (lstrip s))).

(** [digit (["_"] digit)*] after its first digit: the digits read and the
    text left. *)
Fixpoint digits_tail (s : list ascii) : list Z * list ascii :=
  match s with
  | c :: s' =>
      if is_digit c then
        let (ds, r) := digits_tail s' in (digit_value c :: ds, r)
      else if Ascii.eqb c "_" then
        match s' with
        | d :: _ => if is_digit d then digits_tail s' else ([], s)
        | [] => ([], s)
        end
      else ([], s)
  | [] => ([], [])
  end.

(** [digitpart]: none when the text does not start with a digit. *)
Definition digitpart (s : list ascii) : option (list Z * list ascii) :=
  match s with
  | c :: _ => if is_digit c then Some (digits_tail s) else None
  | [] => None
  end.

Definition Z_of_digits (ds : list Z) : Z :=
  fold_left (fun acc d => (10 * acc + d)%Z) ds 0%Z.

(** [number ::= [digitpart] "." digitpart | digitpart ["."]]: the integer
    and fractional digits and the text left. *)
Definition number (s : list ascii) : option (list Z * list Z * list ascii) :=
  match digitpart s with
  | Some (ip, r) =>
      match r with
      | c :: r' =>
          if Ascii.eqb c "." then
            match digitpart r' with
            | Some (fp, r'') => Some (ip, fp, r'')
            | None => Some (ip, [], r')
            end
          else Some (ip, [], r)
      | [] => Some (ip, [], [])
      end
  | None =>
      match s with
      | c :: r' =>
          if Ascii.eqb c "." then
            match digitpart r' with
            | Some (fp, r'') => Some ([], fp, r'')
            | None => None
            end
          else None
      | [] => None
      end
  end.

(** [[sign]]: whether the sign is a minus, and the text left. *)
Definition sign (s : list ascii) : bool * list ascii :=
  match s with
  | c :: s' =>
      if Ascii.eqb c "-" then (true, s')
      else if Ascii.eqb c "+" then (false, s')
      else (false, s)
  | [] => (false, [])
  end.

(** [exponent ::= ("e" | "E") [sign] digitpart], to the end of the text;
    no exponent at all counts as 0. *)
Definition exponent (s : list ascii) : option Z :=
  match s with
  | [] => Some 0%Z
  | c :: s' =>
      if Ascii.eqb (lower c) "e" then
        let (neg, r) := sign s' in
        match digitpart r with
        | Some (ds, []) =>
            Some (if neg then - Z_of_digits ds else Z_of_digits ds)%Z
        | _ => None
        end
      else None
  end.

(** The exact value of a decimal literal. *)
Definition floatnumber (s : list ascii) : option Q :=
  match number s with
  | Some (ip, fp, r) =>
      match exponent r with
      | Some e =>
          let m := Z_of_digits (ip ++ fp) in
          Some (Qred (inject_Z m * Qpower 10 (e - Z.of_nat (List.length fp))))
      | None => None
      end
  | None => None
  end.

(** Rounding to the nearest integer, ties to the even one. *)
Definition round_half_even (m : Q) : Z :=
  let f := Qfloor m in
  match Qcompare (m - inject_Z f) (1 # 2) with
  | Lt => f
  | Gt => (f + 1)%Z
  | Eq => if Z.even f then f else (f + 1)%Z
  end.

(** For [a > 0], the exponent [e] with [2^e <= a < 2^(e+1)]. *)
Definition binade (a : Q) : Z :=
  let e := (Z.log2 (Qnum a) - Z.log2 (Zpos (Qden a)))%Z in
  if Qle_bool (Qpower 2 e) a then e else (e - 1)%Z.

(** The double nearest to [a >= 0], as Python's correctly rounded [strtod]
    gives it: 53 bits of precision, ties to even, subnormals below
    [2^-1022], zero on underflow and infinity from [2^1024] on. *)
Definition round_double (a : Q) : pyfloat :=
  if Qle_bool a 0 then Finite 0
  else
    let p := (Z.max (binade a) (-1022) - 52)%Z in
    let v := inject_Z (round_half_even (a / Qpower 2 p)) * Qpower 2 p in
    if Qle_bool (Qpower 2 1024) v then Infinity false else Finite (Qred v).

Definition absfloatvalue (s : list ascii) : option pyfloat :=
  let name := string_of_list_ascii (map lower s) in
  if String.eqb name "inf" || String.eqb name "infinity" then
    Some (Infinity false)
  else if String.eqb name "nan" then Some NaN
  else option_map round_double (floatnumber s).

Definition negate (v : pyfloat) : pyfloat :=
  match v with
  | Finite q => if Qeq_bool q 0 then NegZero else Finite (Qred (- q))
  | NegZero => Finite 0
  | Infinity n => Infinity (negb n)
  | NaN => NaN
  end.

(** [float(s)] for a text of code points below 256: [None] stands for
    [ValueError]. *)
Definition float_of_string (s : string) : option pyfloat :=
  let (neg, r) := sign (strip (to_ascii (list_ascii_of_string s))) in
  match absfloatvalue r with
  | Some v => Some (if neg then negate v else v)
  | None => None
  end.

End PyFloat.

(* ================================================================== *)
(** * [numpy.linspace] *)
(* ================================================================== *)

Module Numpy.

(** [arange(0, num)] as floats. *)
Definition arange (num : nat) : list Q :=
  map (fun i => inject_Z (Z.of_nat i)) (seq 0 num).

(** [y[-1] = v] on a non-empty array. *)
Definition set_last (y : list Q) (v : Q) : list Q :=
  match y with
  | [] => []
  | _ => removelast y ++ [v]
  end.

(** [linspace(start, stop, num)] with [endpoint=True], following numpy's
    steps: scale [arange] by the step (by [delta] alone when there is a
    single point or none), shift by [start], and overwrite the last sample
    with [stop] when there are at least two. *)
Definition linspace (start stop : Q) (num : nat) : list Q :=
  let div := inject_Z (Z.of_nat (num - 1)) in
  let delta := stop - start in
  let y := arange num in
  let y :=
    if (0 <? num - 1)%nat then
      let step := delta / div in
      if Qeq_bool step 0
      then map (fun v => v / div * delta) y
      else map (fun v => v * step) y
    else map (fun v => v * delta) y in
  let y := map (fun v => v + start) y in
  map Qred (if (1 <? num)%nat then set_last y stop else y).

(** What it means for [xs] to be evenly spaced from [lo] to [hi]: every
    point lies in the interval, the first is [lo], the last (of two or
    more) is [hi], and neighbours are one constant step apart. *)
Definition evenly_spaced (lo hi : Q) (xs : list Q) : Prop :=
  let n := List.length xs in
  (forall i, (i < n)%nat -> lo <= nth i xs 0 <= hi) /\
  ((1 <= n)%nat -> nth 0 xs 0 == lo) /\
  ((2 <= n)%nat -> nth (n - 1) xs 0 == hi) /\
  (forall i, (S i < n)%nat ->
     nth (S i) xs 0 - nth i xs 0
     == (hi - lo) / inject_Z (Z.of_nat (n - 1))).

End Numpy.

(* ================================================================== *)
(** * [lazyplot.py] *)
(* ================================================================== *)

Module Lazyplot.
Import PyFloat Numpy.

(** The exceptions that [main] can let escape. *)
Inductive exn := FileNotFoundError | IndexError | ValueError.

(** A row as [csv.reader] yields it: the list of its fields (a blank line
    yields the empty list). *)
Definition row := list string.

(** The files of the working directory, each as the rows [csv.reader]
    reads from it. *)
Definition filesystem := string -> option (list row).

(** [pyplot]'s current figure. *)
Record Figure := mkFigure {
  xlabel : string;
  ylabel : string;
  title : string;
  grid : bool;
  lines : list (list (Q * pyfloat));
  shown : bool
}.

Definition new_figure : Figure :=
  {| xlabel := ""; ylabel := ""; title := ""; grid := false;
     lines := []; shown := false |}.

(** Computations over the current figure that may raise. *)
Definition M (A : Type) : Type := Figure -> (exn + A) * Figure.

Definition ret {A} (a : A) : M A := fun fig => (inr a, fig).
Definition raise {A} (e : exn) : M A := fun fig => (inl e, fig).
Definition bind {A B} (m : M A) (k : A -> M B) : M B :=
  fun fig =>
    match m fig with
    | (inr a, fig') => k a fig'
    | (inl e, fig') => (inl e, fig')
    end.

Notation "x <- m ;; k" := (bind m (fun x => k))
  (at level 61, m at next level, right associativity).
Notation "m ;; k" := (bind m (fun _ => k))
  (at level 61, right associativity).

Definition plt_xlabel (s : string) : M unit := fun fig =>
  (inr tt, {| xlabel := s; ylabel := ylabel fig; title := title fig;
              grid := grid fig; lines := lines fig; shown := shown fig |}).

Definition plt_ylabel (s : string) : M unit := fun fig =>
  (inr tt, {| xlabel := xlabel fig; ylabel := s; title := title fig;
              grid := grid fig; lines := lines fig; shown := shown fig |}).

Definition plt_title (s : string) : M unit := fun fig =>
  (inr tt, {| xlabel := xlabel fig; ylabel := ylabel fig; title := s;
              grid := grid fig; lines := lines fig; shown := shown fig |}).

(** [plt.grid()] without argument toggles the grid; on a new figure it
    turns it on. *)
Definition plt_grid : M unit := fun fig =>
  (inr tt, {| xlabel := xlabel fig; ylabel := ylabel fig; title := title fig;
              grid := negb (grid fig); lines := lines fig;
              shown := shown fig |}).

(** [plt.plot(x, y)]: one line through the points [(x[i], y[i])];
    [ValueError] when the two sequences differ in length. *)
Definition plt_plot (x : list Q) (y : list pyfloat) : M unit := fun fig =>
  if (List.length x =? List.length y)%nat then
    (inr tt, {| xlabel := xlabel fig; ylabel := ylabel fig;
                title := title fig; grid := grid fig;
                lines := lines fig ++ [combine x y];
                shown := shown fig |})
  else (inl ValueError, fig).

Definition plt_show : M unit := fun fig =>
  (inr tt, {| xlabel := xlabel fig; ylabel := ylabel fig; title := title fig;
              grid := grid fig; lines := lines fig; shown := true |}).

(** [args.filename] once [parser.parse_args()] has returned: the value
    given to [--filename], ["data.csv"] when the flag is absent.  The runs
    in which [parse_args] does not return are those of [command_line]
    below. *)
Definition parse_args (flag : option string) : string :=
  match flag with
  | Some name => name
  | None => "data.csv"%string
  end.

(** [open(filename, "r")] followed by [csv.reader(f)]. *)
Definition open_reader (fs : filesystem) (filename : string) : M (list row) :=
  match fs filename with
  | Some rows => ret rows
  | None => raise FileNotFoundError
  end.

(** [float(row[0])]: [IndexError] on a row without fields, [ValueError] on
    a first field that is not a float literal. *)
Definition float_row0 (r : row) : exn + pyfloat :=
  match r with
  | [] => inl IndexError
  | field :: _ =>
      match float_of_string field with
      | Some v => inr v
      | None => inl ValueError
      end
  end.

(** The loop [for i, row in enumerate(reader): data.append(float(row[0]))]
    from the rows still to read and the [data] gathered so far. *)
Fixpoint read_rows (rows : list row) (data : list pyfloat)
  : exn + list pyfloat :=
  match rows with
  | [] => inr data
  | r :: rest =>
      match float_row0 r with
      | inr v => read_rows rest (data ++ [v])
      | inl e => inl e
      end
  end.

Definition lift {A} (r : exn + A) : M A :=
  match r with
  | inr a => ret a
  | inl e => raise e
  end.

(** [main()], from the value of the [--filename] flag. *)
Definition main (fs : filesystem) (flag : option string) : M unit :=
  let filename := parse_args flag in
  reader <- open_reader fs filename ;;
  data <- lift (read_rows reader []) ;;
  plt_xlabel "Frequency (Hz)" ;;
  plt_ylabel "Power (dB)" ;;
  plt_title "Transfer Function" ;;
  plt_grid ;;
  let f := linspace 10 20000 (List.length data) in
  plt_plot f data ;;
  plt_show.

(** What the process reports when [main()] is run as a script and
    [parse_args] has returned: 0 on a normal return, 1 after an uncaught
    exception. *)
Definition exit_code (r : (exn + unit) * Figure) : Z :=
  match fst r with
  | inr _ => 0%Z
  | inl _ => 1%Z
  end.

(** Running the script in a fresh interpreter. *)
Definition run (fs : filesystem) (flag : option string)
  : (exn + unit) * Figure :=
  main fs flag new_figure.


(** The figure [main] shows for the parsed values [data]. *)
Definition chart_of (data : list pyfloat) : Figure :=
  {| xlabel := "Frequency (Hz)"; ylabel := "Power (dB)";
     title := "Transfer Function"; grid := true;
     lines := [combine (linspace 10 20000 (List.length data)) data];
     shown := true |}.

(** A row whose first field is there and is no float literal. *)
Definition unparsable (r : row) : Prop :=
  exists field rest, r = field :: rest /\ float_of_string field = None.

(** A working directory that holds [data.csv] alone, with the given
    rows. *)
Definition only_data_csv (rows : list row) : filesystem :=
  fun name => if String.eqb name "data.csv" then Some rows else None.

End Lazyplot.

(* ================================================================== *)
(** * Stream-length negotiation *)
(* ================================================================== *)

Module StreamNegotiator.

(** The unit of a requested capture length.  The script passes it as a
    string ([s.stream_request_unit='frames']). *)
Inductive Unit := frames | seconds | milliseconds.

Definition unit_of_string (s : string) : option Unit :=
  if String.eqb s "frames" then Some frames
  else if String.eqb s "seconds" then Some seconds
  else if String.eqb s "milliseconds" then Some milliseconds
  else None.

Record StreamRequest := mkStreamRequest {
  requested_length : Q;
  unit : Unit;
  sampling_freq : Q;
  batch_size : Z
}.

Record ResolvedStream := mkResolvedStream {
  frame_count : Z;
  decimation : Z
}.

Inductive error := InvalidParameterError.

(** Modelled from the spec: the conversion of the requested length into a
    (fractional) number of frames done inside [set_stream_length] of
    [stabilizer_if], which is not among the files at hand. *)
Definition frames_float (req : StreamRequest) : Q :=
  match unit req with
  | seconds => requested_length req * sampling_freq req
  | milliseconds => requested_length req * sampling_freq req / 1000
  | frames => requested_length req
  end.

(** Modelled from the spec: rounding up to the nearest multiple of the
    batch size, part of the missing [set_stream_length]. *)
Definition round_up_to_multiple (x : Q) (b : Z) : Z :=
  (Qceiling (x / inject_Z b) * b)%Z.

(** Modelled from the spec: the decimation for a plotted-point budget,
    [ceil(frame_count / target_points)], at least 1; part of the missing
    [stabilizer_if]. *)
Definition decimation_for (frames_ : Z) (target_points : option Z) : Z :=
  match target_points with
  | None => 1%Z
  | Some t => Z.max 1 (Qceiling (inject_Z frames_ / inject_Z t))
  end.

(** Modelled from the spec: [resolve], that is [set_stream_length] of
    [stabilizer_if], called at line 22 of [run_conf.py] and defined
    outside the files at hand. *)
Definition set_stream_length (req : StreamRequest) : error + ResolvedStream :=
  if Qle_bool (requested_length req) 0
     || Qle_bool (sampling_freq req) 0
     || (batch_size req <=? 0)%Z
  then inl InvalidParameterError
  else
    let n := round_up_to_multiple (frames_float req) (batch_size req) in
    inr {| frame_count := n; decimation := decimation_for n None |}.

Definition resolve := set_stream_length.

End StreamNegotiator.

(* ================================================================== *)
(** * PID coefficient synthesis *)
(* ================================================================== *)

Module CoefficientSynthesizer.

(** The controller as the script configures it: the gains, the sample
    interval given to [add_iir], and the output offset and clamp
    ([y_offset], [y_min], [y_max]). *)
Record ControllerSpec := mkControllerSpec {
  Kp : Q;
  Ki : Q;
  Kd : Q;
  sample_interval : Q;
  y_offset : Q;
  y_min : Q;
  y_max : Q
}.

(** The five taps [ba = [b0, b1, b2, a1, a2]] of a second-order section,
    for the recurrence
    [y[n] = b0 x[n] + b1 x[n-1] + b2 x[n-2] + a1 y[n-1] + a2 y[n-2]]. *)
Record FilterCoefficients := mkBa {
  b0 : Q; b1 : Q; b2 : Q; a1 : Q; a2 : Q
}.

Definition taps (c : FilterCoefficients) : list Q :=
  [b0 c; b1 c; b2 c; a1 c; a2 c].

Inductive error := InvalidParameterError.

(** All three gains are zero. *)
Definition switched_off (spec : ControllerSpec) : bool :=
  Qeq_bool (Kp spec) 0 && Qeq_bool (Ki spec) 0 && Qeq_bool (Kd spec) 0.

(** Modelled from the spec: [derive], that is [compute_coeff] of
    [stabilizer_if], called at line 28 of [run_conf.py] and defined
    outside the files at hand.  With all three gains zero the taps are
    those of the pass-through, as the spec requires.  Otherwise the
    discretization rule chosen is the backward difference
    [s = (1 - 1/z) / T]:
    [C(z) = Kp + Ki T / (1 - 1/z) + Kd (1 - 1/z) / T],
    and without integral gain the section has no feedback tap. *)
Definition compute_coeff (spec : ControllerSpec)
  : error + FilterCoefficients :=
  let T := sample_interval spec in
  if Qle_bool T 0 then inl InvalidParameterError
  else if switched_off spec then
    inr {| b0 := 1; b1 := 0; b2 := 0; a1 := 0; a2 := 0 |}
  else if Qeq_bool (Ki spec) 0 then
    inr {| b0 := Kp spec + Kd spec / T;
           b1 := - (Kd spec / T);
           b2 := 0;
           a1 := 0;
           a2 := 0 |}
  else
    inr {| b0 := Kp spec + Ki spec * T + Kd spec / T;
           b1 := - (Kp spec + 2 * (Kd spec / T));
           b2 := Kd spec / T;
           a1 := 1;
           a2 := 0 |}.

Definition derive := compute_coeff.

(** Modelled from the spec: the proportional gain the taps stand for, the
    unit gain of the pass-through when all three gains are zero. *)
Definition gain_in_effect (spec : ControllerSpec) : Q :=
  if switched_off spec then 1 else Kp spec.

(** The memory of a second-order section: the last two inputs and the last
    two outputs. *)
Record FilterState := mkFilterState {
  x1 : Q; x2 : Q; y1 : Q; y2 : Q
}.

Definition rest_state : FilterState :=
  {| x1 := 0; x2 := 0; y1 := 0; y2 := 0 |}.

(** Modelled from the spec: one evaluation of the filter by the controller
    of the missing [stabilizer_if], the output and the next memory. *)
Definition filter_step (c : FilterCoefficients) (st : FilterState) (x0 : Q)
  : Q * FilterState :=
  let y0 := b0 c * x0 + b1 c * x1 st + b2 c * x2 st
            + a1 c * y1 st + a2 c * y2 st in
  (y0, {| x1 := x0; x2 := x1 st; y1 := y0; y2 := y1 st |}).

Fixpoint filter_from (c : FilterCoefficients) (st : FilterState)
         (xs : list Q) : list Q :=
  match xs with
  | [] => []
  | x0 :: rest =>
      let (y0, st') := filter_step c st x0 in
      y0 :: filter_from c st' rest
  end.

(** The outputs of the filter on the inputs [xs], from rest. *)
Definition run_filter (c : FilterCoefficients) (xs : list Q) : list Q :=
  filter_from c rest_state xs.

(** Pointwise equality of two signals as rationals. *)
Abbreviation same_signal := (Forall2 Qeq).

(** Modelled from the spec: the response the gains stand for, in the time
    domain, under the backward-difference rule; the reference the taps of
    the missing [compute_coeff] are held against.  [pid_from] carries the
    running integral [acc] and the previous input [prev]. *)
Fixpoint pid_from (kp ki kd T : Q) (acc prev : Q) (xs : list Q) : list Q :=
  match xs with
  | [] => []
  | x0 :: rest =>
      let acc' := acc + ki * T * x0 in
      (kp * x0 + acc' + kd * ((x0 - prev) / T))
        :: pid_from kp ki kd T acc' x0 rest
  end.

Definition pid_response (spec : ControllerSpec) (xs : list Q) : list Q :=
  pid_from (gain_in_effect spec) (Ki spec) (Kd spec) (sample_interval spec)
           0 0 xs.

(** Modelled from the spec: "pure PD behavior", the response without
    integral action of the missing [compute_coeff]'s filter: the output
    depends on the current and the previous input and on nothing older. *)
Fixpoint pd_from (kp kd T : Q) (prev : Q) (xs : list Q) : list Q :=
  match xs with
  | [] => []
  | x0 :: rest =>
      (kp * x0 + kd * ((x0 - prev) / T)) :: pd_from kp kd T x0 rest
  end.

(** Modelled from the spec: "no derivative term", the response without
    derivative action of the missing [compute_coeff]'s filter: no
    difference of inputs enters. *)
Fixpoint pi_from (kp ki T : Q) (acc : Q) (xs : list Q) : list Q :=
  match xs with
  | [] => []
  | x0 :: rest =>
      let acc' := acc + ki * T * x0 in
      (kp * x0 + acc') :: pi_from kp ki T acc' rest
  end.

End CoefficientSynthesizer.

(* ================================================================== *)
(** * Live telemetry plot *)
(* ================================================================== *)

Module LivePlotter.

Inductive XType := time_ms | sample_index | frequency.

(** Axis limits: ['auto'] or one fixed interval per channel. *)
Inductive Limits := auto | fixed (bounds : list (Q * Q)).

(** The plot object as the script configures it ([plots], [xlim], [ylim],
    [xtype], [tolerance], [refresh_ylim]), with the length of the window
    ([frame_count] of the resolved stream). *)
Record PlotConfig := mkPlotConfig {
  plots : list string;
  xlim : Limits;
  ylim : Limits;
  xtype : XType;
  tolerance : Q;
  refresh_ylim : bool;
  frame_count : nat
}.

(** One sample: the readings by channel name. *)
Definition Sample := list (string * Q).

Inductive Phase := Idle | Streaming | Stopped.

(** The plotter while it runs: one window per plotted channel, the minimum
    and maximum of each window as of the last redraw, and the counts of
    redraws and of skipped samples. *)
Record Plotter := mkPlotter {
  phase : Phase;
  buffers : list (list Q);
  drawn : list (Q * Q);
  redraws : nat;
  skipped : nat
}.

Fixpoint reading (name : string) (smp : Sample) : option Q :=
  match smp with
  | [] => None
  | (k, v) :: rest => if String.eqb k name then Some v else reading name rest
  end.

(** Modelled from the spec: the readings of the plotted channels taken by
    the missing live plot; none when the sample lacks one. *)
Fixpoint select (names : list string) (smp : Sample) : option (list Q) :=
  match names with
  | [] => Some []
  | name :: rest =>
      match reading name smp, select rest smp with
      | Some v, Some vs => Some (v :: vs)
      | _, _ => None
      end
  end.

(** Modelled from the spec: appending to the window of the missing live
    plot, which holds at most [n] readings; the oldest ones go. *)
Definition push (n : nat) (buf : list Q) (v : Q) : list Q :=
  let b := buf ++ [v] in
  skipn (List.length b - n) b.

Definition push_all (n : nat) (bufs : list (list Q)) (vs : list Q)
  : list (list Q) :=
  map (fun bv => push n (fst bv) (snd bv)) (combine bufs vs).

(** Modelled from the spec: minimum and maximum of a window of the missing
    live plot; none when it is empty. *)
Definition extrema (buf : list Q) : option (Q * Q) :=
  match buf with
  | [] => None
  | x :: rest => Some (fold_left Qmin rest x, fold_left Qmax rest x)
  end.

Section Policy.

(** The fractional change from an extremum as last drawn to its current
    value.  The written specification names the quantity without giving
    its formula, so the policy is stated for any. *)
Variable frac_change : Q -> Q -> Q.

(** Modelled from the spec: the test of the missing live plot's refresh
    policy; the change of one channel exceeds the tolerance when that of
    its minimum or that of its maximum does. *)
Definition channel_exceeds (tol : Q) (old : Q * Q) (now : option (Q * Q))
  : bool :=
  match now with
  | Some (lo, hi) =>
      negb (Qle_bool (frac_change (fst old) lo) tol)
      || negb (Qle_bool (frac_change (snd old) hi) tol)
  | None => false
  end.

(** Modelled from the spec: "for at least one plotted channel", in the
    refresh policy of the missing live plot. *)
Definition any_exceeds (tol : Q) (old : list (Q * Q))
           (now : list (option (Q * Q))) : bool :=
  existsb (fun on => channel_exceeds tol (fst on) (snd on)) (combine old now).

(** Modelled from the spec: what the missing live plot has drawn after a
    redraw, the current extrema (the former ones for an empty window). *)
Definition redrawn (old : list (Q * Q)) (now : list (option (Q * Q)))
  : list (Q * Q) :=
  map (fun on => match snd on with Some e => e | None => fst on end)
      (combine old now).

(** Modelled from the spec: the handling of one incoming sample by the
    live plot of [stabilizer_if] ([add_plot], line 36 of [run_conf.py]),
    whose code is outside the files at hand.  The result is the plotter
    after the sample and whether a redraw took place. *)
Definition on_sample (cfg : PlotConfig) (st : Plotter) (smp : Sample)
  : Plotter * bool :=
  match phase st with
  | Streaming =>
      match select (plots cfg) smp with
      | None =>
          ({| phase := Streaming; buffers := buffers st; drawn := drawn st;
              redraws := redraws st; skipped := S (skipped st) |}, false)
      | Some vs =>
          let bufs := push_all (frame_count cfg) (buffers st) vs in
          let now := map extrema bufs in
          let redraw :=
            if refresh_ylim cfg
            then any_exceeds (tolerance cfg) (drawn st) now
            else true in
          ({| phase := Streaming; buffers := bufs;
              drawn := if redraw then redrawn (drawn st) now else drawn st;
              redraws := if redraw then S (redraws st) else redraws st;
              skipped := skipped st |}, redraw)
      end
  | _ => (st, false)
  end.

(** Modelled from the spec: the missing live plot after a sequence of
    samples, each handled by [on_sample] in turn. *)
Fixpoint feed (cfg : PlotConfig) (st : Plotter) (samples : list Sample)
  : Plotter :=
  match samples with
  | [] => st
  | smp :: rest => feed cfg (fst (on_sample cfg st smp)) rest
  end.

(** Modelled from the spec: [stop()] releases the windows; samples that
    arrive later are ignored. *)
Definition stop (st : Plotter) : Plotter :=
  {| phase := Stopped; buffers := []; drawn := drawn st;
     redraws := redraws st; skipped := skipped st |}.

End Policy.

(** One reading of "fractional change": the distance moved, relative to
    the size of the value last drawn. *)
Definition relative_change (old new : Q) : Q := Qabs (new - old) / Qabs old.

(** ** The refresh policy on the data

    What follows says when the extrema of the data have moved, without
    reference to the way [on_sample] finds it out. *)

(** The most recent [n] readings of a history. *)
Definition most_recent (n : nat) (l : list Q) : list Q :=
  rev (firstn n (rev l)).

(** The windows of the channels once the readings [vs] have come in, one
    reading per channel. *)
Definition windows_after (n : nat) (wins : list (list Q)) (vs : list Q)
  : list (list Q) :=
  map (fun wv => most_recent n (fst wv ++ [snd wv])) (combine wins vs).

(** The windows after a sequence of samples, each given by its readings. *)
Definition windows_through (n : nat) (wins : list (list Q))
           (values : list (list Q)) : list (list Q) :=
  fold_left (windows_after n) values wins.

Definition is_min (m : Q) (w : list Q) : Prop :=
  In m w /\ forall x, In x w -> m <= x.

Definition is_max (m : Q) (w : list Q) : Prop :=
  In m w /\ forall x, In x w -> x <= m.

(** [d] is a minimum and a maximum of the window [w]. *)
Definition extrema_of (d : Q * Q) (w : list Q) : Prop :=
  is_min (fst d) w /\ is_max (snd d) w.

Section OnData.

Variable frac_change : Q -> Q -> Q.
Variable tol : Q.

(** Equal numbers have equal fractional changes, however they are
    written. *)
Definition respects_equality : Prop :=
  forall a a' b b', a == a' -> b == b' -> frac_change a b == frac_change a' b'.

(** The minimum or the maximum of the window [w] has moved from [old], the
    pair last drawn, by more than the tolerance. *)
Definition moved_beyond (old : Q * Q) (w : list Q) : Prop :=
  exists now,
    extrema_of now w /\
    (tol < frac_change (fst old) (fst now)
     \/ tol < frac_change (snd old) (snd now)).

(** Neither the minimum nor the maximum of the window [w] has moved from
    [old] by more than the tolerance. *)
Definition stays_within (old : Q * Q) (w : list Q) : Prop :=
  forall now,
    extrema_of now w ->
    frac_change (fst old) (fst now) <= tol
    /\ frac_change (snd old) (snd now) <= tol.

(** Samples, given by their readings, that leave the extrema of every
    channel within tolerance of [old], the pairs last drawn, one after the
    other from the windows [wins]. *)
Fixpoint calm (n : nat) (old : list (Q * Q)) (wins : list (list Q))
         (values : list (list Q)) : Prop :=
  match values with
  | [] => True
  | vs :: rest =>
      Forall2 stays_within old (windows_after n wins vs)
      /\ calm n old (windows_after n wins vs) rest
  end.

End OnData.

End LivePlotter.

(* ================================================================== *)
(** * [run_conf.py] *)
(* ================================================================== *)

Module RunConf.
Import LivePlotter.

(** Lines 38 to 45: the settings of the plot, over a window of [n]
    frames. *)
Definition plot (n : nat) : PlotConfig :=
  {| plots := ["ErrMod"; "Mod"; "ErrDemod"; "CtrlDac"]%string;
     xlim := auto; ylim := auto; xtype := time_ms;
     tolerance := 0.2; refresh_ylim := true; frame_count := n |}.

(** A running plot of the four channels with windows of two readings each,
    drawn as they are, and a sample of four readings. *)
Definition plot_running : Plotter :=
  {| phase := Streaming;
     buffers := [[1; 2]; [1; 2]; [1; 2]; [1; 2]];
     drawn := [(1, 2); (1, 2); (1, 2); (1, 2)];
     redraws := 0; skipped := 0 |}.

Definition sample_of (err_mod mod_ err_demod ctrl_dac : Q) : Sample :=
  [("ErrMod", err_mod); ("Mod", mod_); ("ErrDemod", err_demod);
   ("CtrlDac", ctrl_dac)]%string.

End RunConf.

(* ================================================================== *)
(** * Vocabulary for further properties of [lazyplot.py] *)
(* ================================================================== *)

Module LazyplotVocabulary.
Import PyFloat Lazyplot.

(** A string of the white space that [float] drops: tabs, line feeds,
    vertical tabs, form feeds, carriage returns and spaces. *)
Definition blank (s : string) : Prop :=
  Forall (fun c => is_space c = true) (list_ascii_of_string s).

(** [r'] is [r] with white space added around its first field, and any
    other fields after it. *)
Definition padded (r r' : row) : Prop :=
  (r = [] /\ r' = []) \/
  exists pre field post rest rest',
    blank pre /\ blank post /\
    r = field :: rest /\
    r' = String.append pre (String.append field post) :: rest'.

(** The frequencies of a line go up from each point to the next. *)
Definition rising (pts : list (Q * pyfloat)) : Prop :=
  forall i, (S i < List.length pts)%nat ->
            fst (nth i pts (0, NaN)) < fst (nth (S i) pts (0, NaN)).

(** The three ways [parser.parse_args()] can end for this parser: it
    returns, with the value of [--filename] if the flag was given; it
    prints the help and leaves the process with status 0 ([-h],
    [--help]); or it reports a usage error and leaves the process with
    status 2.  Which of them a command line gets is [argparse]'s matter. *)
Inductive command_line :=
| Accepted (flag : option string)
| Help
| Rejected.

(** The process from its start ([if __name__ == "__main__": main()]): its
    exit status and the figure it leaves. *)
Definition script (fs : filesystem) (c : command_line) : Z * Figure :=
  match c with
  | Accepted flag => (exit_code (run fs flag), snd (run fs flag))
  | Help => (0%Z, new_figure)
  | Rejected => (2%Z, new_figure)
  end.

End LazyplotVocabulary.

(* ================================================================== *)
(** * Facts on rationals used throughout *)
(* ================================================================== *)

Module QFacts.

Lemma Qle_bool_false_lt (x y : Q) : x < y -> Qle_bool y x = false.
Proof.
  intros H. destruct (Qle_bool y x) eqn:E; [|reflexivity].
  apply Qle_bool_iff in E. exfalso. apply (Qlt_not_le _ _ H E).
Qed.

Lemma Qle_bool_false_gt (x y : Q) : Qle_bool y x = false -> x < y.
Proof.
  intros E. apply Qnot_le_lt. intros Hle.
  apply Qle_bool_iff in Hle. congruence.
Qed.

Lemma inject_Z_pos (b : Z) : (0 < b)%Z -> 0 < inject_Z b.
Proof. intros H. unfold Qlt. simpl. lia. Qed.

Lemma positive_nonzero (T : Q) : 0 < T -> ~ T == 0.
Proof. intros H E. rewrite E in H. discriminate. Qed.

End QFacts.

(* ================================================================== *)
(** * Properties of the stream-length negotiation *)
(* ================================================================== *)

Module StreamNegotiatorSpec.
Import StreamNegotiator QFacts.

Lemma valid_request_accepted (req : StreamRequest) :
  0 < requested_length req -> 0 < sampling_freq req ->
  (0 < batch_size req)%Z ->
  set_stream_length req =
  inr {| frame_count := round_up_to_multiple (frames_float req) (batch_size req);
         decimation := 1 |}.
Proof.
  intros HL Hf Hb. unfold set_stream_length.
  rewrite (Qle_bool_false_lt _ _ HL), (Qle_bool_false_lt _ _ Hf).
  replace (batch_size req <=? 0)%Z with false
    by (symmetry; apply Z.leb_gt; exact Hb).
  reflexivity.
Qed.

Lemma frames_float_pos (req : StreamRequest) :
  0 < requested_length req -> 0 < sampling_freq req -> 0 < frames_float req.
Proof.
  intros HL Hf. unfold frames_float. destruct (unit req).
  - exact HL.
  - apply Qmult_lt_0_compat; assumption.
  - unfold Qdiv. apply Qmult_lt_0_compat.
    + apply Qmult_lt_0_compat; assumption.
    + reflexivity.
Qed.

(** Rounding up covers the raw value. *)
Lemma round_up_ge (x : Q) (b : Z) :
  (0 < b)%Z -> x <= inject_Z (round_up_to_multiple x b).
Proof.
  intros Hb. unfold round_up_to_multiple.
  pose proof (inject_Z_pos b Hb) as HbQ.
  rewrite inject_Z_mult.
  assert (Hx : x == x / inject_Z b * inject_Z b).
  { field. intro E. rewrite E in HbQ. discriminate. }
  rewrite Hx at 1.
  apply Qmult_le_compat_r.
  - apply Qle_ceiling.
  - apply Qlt_le_weak, HbQ.
Qed.

(** Rounding up goes no further than the next multiple. *)
Lemma round_up_tight (x : Q) (b : Z) :
  (0 < b)%Z -> inject_Z (round_up_to_multiple x b - b) < x.
Proof.
  intros Hb. unfold round_up_to_multiple.
  pose proof (inject_Z_pos b Hb) as HbQ.
  replace (Qceiling (x / inject_Z b) * b - b)%Z
    with ((Qceiling (x / inject_Z b) - 1) * b)%Z by ring.
  rewrite inject_Z_mult.
  assert (Hx : x == x / inject_Z b * inject_Z b).
  { field. intro E. rewrite E in HbQ. discriminate. }
  rewrite Hx at 2.
  apply Qmult_lt_compat_r; [exact HbQ|].
  apply Qceiling_lt.
Qed.

Lemma round_up_factor_pos (x : Q) (b : Z) :
  (0 < b)%Z -> 0 < x -> (0 < Qceiling (x / inject_Z b))%Z.
Proof.
  intros Hb Hx. pose proof (inject_Z_pos b Hb) as HbQ.
  rewrite Zlt_Qlt. change (inject_Z 0) with 0.
  apply Qlt_le_trans with (x / inject_Z b).
  - unfold Qdiv. apply Qmult_lt_0_compat; [exact Hx|].
    apply Qinv_lt_0_compat, HbQ.
  - apply Qle_ceiling.
Qed.

(** C1. For a request with positive length, sampling frequency and batch
    size, [set_stream_length] (the spec's [resolve]) succeeds, and its frame
    count is a positive integer multiple of the batch size that is at least
    the raw, unrounded number of requested frames: rounding goes up, never
    down (and stops at the first multiple reached). *)
Theorem resolve_frame_count_rounds_up (req : StreamRequest) :
  0 < requested_length req -> 0 < sampling_freq req ->
  (0 < batch_size req)%Z ->
  exists r,
    resolve req = inr r /\
    (0 < frame_count r)%Z /\
    (exists k, (0 < k)%Z /\ frame_count r = (k * batch_size req)%Z) /\
    (frame_count r mod batch_size req = 0)%Z /\
    frames_float req <= inject_Z (frame_count r) /\
    inject_Z (frame_count r - batch_size req) < frames_float req.
Proof.
  intros HL Hf Hb.
  eexists. split; [apply valid_request_accepted; assumption|]. simpl.
  pose proof (round_up_factor_pos (frames_float req) (batch_size req) Hb
                (frames_float_pos req HL Hf)) as Hk.
  repeat split.
  - unfold round_up_to_multiple. apply Z.mul_pos_pos; assumption.
  - exists (Qceiling (frames_float req / inject_Z (batch_size req))).
    split; [exact Hk | reflexivity].
  - unfold round_up_to_multiple. apply Z.mod_mul. lia.
  - apply round_up_ge, Hb.
  - apply round_up_tight, Hb.
Qed.

(** The theorem above at the request of [run_conf.py] (500 frames), for a
    device that samples at 781250 Hz in batches of 8. *)
Lemma resolve_frame_count_rounds_up_witness :
  exists r,
    resolve (mkStreamRequest 500 frames 781250 8) = inr r /\
    (0 < frame_count r)%Z /\
    (exists k, (0 < k)%Z /\ frame_count r = (k * 8)%Z) /\
    (frame_count r mod 8 = 0)%Z /\
    500 <= inject_Z (frame_count r) /\
    inject_Z (frame_count r - 8) < 500.
Proof.
  apply (resolve_frame_count_rounds_up (mkStreamRequest 500 frames 781250 8));
    reflexivity.
Defined.

Example resolve_500_frames_batch_8 :
  resolve (mkStreamRequest 500 frames 781250 8)
  = inr {| frame_count := 504; decimation := 1 |}.
Proof. reflexivity. Qed.

Example resolve_rejects_zero_length :
  resolve (mkStreamRequest 0 frames 781250 8) = inl InvalidParameterError.
Proof. reflexivity. Qed.

(** A length in seconds and the same length in milliseconds ask for the
    same number of frames. *)
Lemma seconds_milliseconds_frames (L f : Q) (b : Z) :
  frames_float (mkStreamRequest (1000 * L) milliseconds f b)
  == frames_float (mkStreamRequest L seconds f b).
Proof. unfold frames_float; simpl. field. Qed.

Lemma seconds_milliseconds_agree (L f : Q) (b : Z) :
  0 < L -> 0 < f -> (0 < b)%Z ->
  resolve (mkStreamRequest (1000 * L) milliseconds f b)
  = resolve (mkStreamRequest L seconds f b).
Proof.
  intros HL Hf Hb. unfold resolve.
  rewrite !valid_request_accepted; simpl; try assumption.
  - unfold round_up_to_multiple.
    rewrite (Qceiling_comp _ _
               (Qdiv_comp _ _ (seconds_milliseconds_frames L f b)
                          _ _ (Qeq_refl (inject_Z b)))).
    reflexivity.
  - apply Qmult_lt_0_compat; [reflexivity | exact HL].
Qed.


End StreamNegotiatorSpec.

(* ================================================================== *)
(** * Properties of [numpy.linspace] *)
(* ================================================================== *)

Module NumpySpec.
Import Numpy.

Lemma arange_length (n : nat) : List.length (arange n) = n.
Proof. unfold arange. rewrite length_map. apply length_seq. Qed.

Lemma arange_nth (n i : nat) :
  (i < n)%nat -> nth i (arange n) 0 = inject_Z (Z.of_nat i).
Proof.
  intros H. unfold arange.
  change 0 with (inject_Z (Z.of_nat 0)).
  rewrite (map_nth (fun i => inject_Z (Z.of_nat i))).
  rewrite seq_nth by exact H. reflexivity.
Qed.

Lemma set_last_length (y : list Q) (v : Q) :
  List.length (set_last y v) = List.length y.
Proof.
  destruct y as [|a y]; [reflexivity|].
  unfold set_last. rewrite length_app, removelast_firstn_len, length_firstn.
  simpl List.length. lia.
Qed.

Lemma set_last_nth (y : list Q) (v : Q) (i : nat) :
  (i < List.length y)%nat ->
  nth i (set_last y v) 0
  = if (i =? List.length y - 1)%nat then v else nth i y 0.
Proof.
  intros Hi. destruct y as [|a y]; [simpl in Hi; lia|].
  unfold set_last. rewrite removelast_firstn_len.
  set (l := a :: y) in *.
  assert (Hlen : List.length (firstn (Nat.pred (List.length l)) l)
                 = (List.length l - 1)%nat).
  { rewrite length_firstn. lia. }
  destruct (Nat.eqb_spec i (List.length l - 1)) as [E|E].
  - rewrite app_nth2 by lia. rewrite Hlen, E, Nat.sub_diag. reflexivity.
  - rewrite app_nth1 by lia. rewrite nth_firstn.
    destruct (Nat.ltb_spec i (Nat.pred (List.length l))); [reflexivity|lia].
Qed.

Lemma nth_map_arange (f : Q -> Q) (n i : nat) :
  (i < n)%nat -> nth i (map f (arange n)) 0 = f (inject_Z (Z.of_nat i)).
Proof.
  intros H.
  rewrite (nth_indep _ 0 (f 0)) by (rewrite length_map, arange_length; exact H).
  rewrite map_nth, arange_nth by exact H. reflexivity.
Qed.

Lemma nth_map_Qred (l : list Q) (i : nat) :
  nth i (map Qred l) 0 = Qred (nth i l 0).
Proof. exact (map_nth Qred l 0 i). Qed.

Lemma linspace_length (start stop : Q) (n : nat) :
  List.length (linspace start stop n) = n.
Proof.
  unfold linspace. rewrite length_map.
  destruct (1 <? n)%nat; rewrite ?set_last_length, length_map;
    destruct (0 <? n - 1)%nat; try destruct (Qeq_bool _ _);
    rewrite length_map; apply arange_length.
Qed.

Lemma linspace_0 (start stop : Q) : linspace start stop 0 = [].
Proof. reflexivity. Qed.

Lemma linspace_1 (start stop : Q) :
  linspace start stop 1 = [Qred (0 * (stop - start) + start)].
Proof. reflexivity. Qed.

Lemma linspace_1_head (start stop : Q) :
  nth 0 (linspace start stop 1) 0 == start.
Proof.
  rewrite linspace_1. cbn [nth].
  eapply Qeq_trans; [apply Qred_correct | ring].
Qed.

Lemma inject_nat_pos (k : nat) : (0 < k)%nat -> 0 < inject_Z (Z.of_nat k).
Proof. intros H. unfold Qlt. simpl. lia. Qed.

Lemma inject_nat_nonzero (k : nat) :
  (0 < k)%nat -> ~ inject_Z (Z.of_nat k) == 0.
Proof.
  intros H E. pose proof (inject_nat_pos k H) as P.
  rewrite E in P. discriminate.
Qed.

(** The points of [linspace], in closed form. *)
Lemma linspace_nth (start stop : Q) (n i : nat) :
  (2 <= n)%nat -> (i < n)%nat ->
  nth i (linspace start stop n) 0
  == start + inject_Z (Z.of_nat i)
             * ((stop - start) / inject_Z (Z.of_nat (n - 1))).
Proof.
  intros Hn Hi. unfold linspace.
  assert (Hk : ~ inject_Z (Z.of_nat (n - 1)) == 0)
    by (apply inject_nat_nonzero; lia).
  replace (1 <? n)%nat with true by (symmetry; apply Nat.ltb_lt; lia).
  replace (0 <? n - 1)%nat with true by (symmetry; apply Nat.ltb_lt; lia).
  rewrite nth_map_Qred, Qred_correct.
  rewrite set_last_nth.
  2:{ rewrite length_map.
      destruct (Qeq_bool _ _); rewrite length_map, arange_length; exact Hi. }
  rewrite length_map.
  assert (Hlen : forall f : Q -> Q, List.length (map f (arange n)) = n)
    by (intros f; rewrite length_map; apply arange_length).
  destruct (Qeq_bool _ _); rewrite Hlen.
  - destruct (Nat.eqb_spec i (n - 1)) as [E|E].
    + subst i. field. exact Hk.
    + rewrite map_map, nth_map_arange by exact Hi. field. exact Hk.
  - destruct (Nat.eqb_spec i (n - 1)) as [E|E].
    + subst i. field. exact Hk.
    + rewrite map_map, nth_map_arange by exact Hi. field. exact Hk.
Qed.

Lemma inject_nat_le (i k : nat) :
  (i <= k)%nat -> inject_Z (Z.of_nat i) <= inject_Z (Z.of_nat k).
Proof. intros H. rewrite <- Zle_Qle. lia. Qed.

(** [linspace] is evenly spaced from [lo] to [hi], whatever the number of
    points. *)
Lemma linspace_evenly_spaced (lo hi : Q) (n : nat) :
  lo <= hi -> evenly_spaced lo hi (linspace lo hi n).
Proof.
  intros Hle. unfold evenly_spaced. rewrite linspace_length.
  destruct (Nat.le_gt_cases 2 n) as [Hn|Hn].
  - assert (Hk : 0 < inject_Z (Z.of_nat (n - 1)))
      by (apply inject_nat_pos; lia).
    assert (Hk' : ~ inject_Z (Z.of_nat (n - 1)) == 0)
      by (apply inject_nat_nonzero; lia).
    assert (Hstep : 0 <= (hi - lo) / inject_Z (Z.of_nat (n - 1))).
    { unfold Qdiv. apply Qmult_le_0_compat; [lra|].
      apply Qlt_le_weak, Qinv_lt_0_compat, Hk. }
    repeat split.
    + rewrite linspace_nth by assumption.
      assert (0 <= inject_Z (Z.of_nat i)
                   * ((hi - lo) / inject_Z (Z.of_nat (n - 1)))).
      { apply Qmult_le_0_compat; [|exact Hstep].
        change 0 with (inject_Z 0). rewrite <- Zle_Qle. lia. }
      lra.
    + rewrite linspace_nth by assumption.
      assert (inject_Z (Z.of_nat i)
                * ((hi - lo) / inject_Z (Z.of_nat (n - 1)))
              <= inject_Z (Z.of_nat (n - 1))
                 * ((hi - lo) / inject_Z (Z.of_nat (n - 1)))).
      { apply Qmult_le_compat_r; [|exact Hstep].
        apply inject_nat_le. lia. }
      assert (inject_Z (Z.of_nat (n - 1))
                * ((hi - lo) / inject_Z (Z.of_nat (n - 1)))
              == hi - lo) by (field; exact Hk').
      lra.
    + intros _. rewrite linspace_nth by lia. simpl inject_Z. ring.
    + intros _. rewrite linspace_nth by lia. field. exact Hk'.
    + intros i Hi. rewrite !linspace_nth by lia.
      rewrite Nat2Z.inj_succ, <- Z.add_1_r, inject_Z_plus. simpl (inject_Z 1).
      field. exact Hk'.
  - destruct n as [|[|n]]; [| |lia].
    + repeat split; intros; lia.
    + repeat split; intros; try lia.
      * replace i with 0%nat by lia. rewrite linspace_1_head. lra.
      * replace i with 0%nat by lia. rewrite linspace_1_head. exact Hle.
      * apply linspace_1_head.
Qed.

End NumpySpec.

(* ================================================================== *)
(** * Properties of [lazyplot.py] *)
(* ================================================================== *)

Module LazyplotSpec.
Import PyFloat Numpy NumpySpec Lazyplot.

(** The loop gathers the values of the rows in order when all of them
    parse. *)
Lemma read_rows_ok (rows : list row) (values data : list pyfloat) :
  map float_row0 rows = map inr values ->
  read_rows rows data = inr (data ++ values).
Proof.
  revert values data.
  induction rows as [|r rows IH]; intros [|v values] data H;
    simpl in H; try discriminate.
  - simpl. rewrite app_nil_r. reflexivity.
  - injection H as Hr Hrest. simpl. rewrite Hr.
    rewrite (IH values (data ++ [v]) Hrest), <- app_assoc. reflexivity.
Qed.

(** The loop stops at the first row that does not parse, with that row's
    exception. *)
Lemma read_rows_raises (good : list row) (bad : row) (rest : list row)
      (values data : list pyfloat) (e : exn) :
  map float_row0 good = map inr values ->
  float_row0 bad = inl e ->
  read_rows (good ++ bad :: rest) data = inl e.
Proof.
  revert values data.
  induction good as [|r good IH]; intros [|v values] data H Hbad;
    simpl in H; try discriminate.
  - simpl. rewrite Hbad. reflexivity.
  - injection H as Hr Hrest. simpl. rewrite Hr.
    apply (IH values); assumption.
Qed.

(** Every list of rows either parses as a whole or splits at its first
    failing row. *)
Lemma rows_parse_or_split (rows : list row) :
  (exists values, map float_row0 rows = map inr values) \/
  (exists good bad rest values e,
      rows = good ++ bad :: rest /\
      map float_row0 good = map inr values /\
      float_row0 bad = inl e).
Proof.
  induction rows as [|r rows IH].
  - left. exists []. reflexivity.
  - destruct (float_row0 r) as [e|v] eqn:Er.
    + right. exists [], r, rows, [], e. repeat split. exact Er.
    + destruct IH as [[values Hv]|(good & bad & rest & values & e & -> & Hg & Hb)].
      * left. exists (v :: values). simpl. rewrite Er, Hv. reflexivity.
      * right. exists (r :: good), bad, rest, (v :: values), e.
        repeat split; [|exact Hb]. simpl. rewrite Er, Hg. reflexivity.
Qed.

Lemma map_inr_length (rows : list row) (values : list pyfloat) :
  map float_row0 rows = map inr values ->
  List.length values = List.length rows.
Proof.
  intros H. apply (f_equal (@List.length _)) in H.
  rewrite !length_map in H. symmetry. exact H.
Qed.

(** Runs [main] up to the opening of the file named by the flag. *)
Ltac open_file Hfs :=
  unfold run, main, bind, open_reader; rewrite Hfs.

(** [main] on a file that parses: the chart is shown and nothing is
    raised. *)
Lemma run_success (fs : filesystem) (flag : option string)
      (rows : list row) (data : list pyfloat) :
  fs (parse_args flag) = Some rows ->
  read_rows rows [] = inr data ->
  run fs flag = (inr tt, chart_of data).
Proof.
  intros Hfs Hread. open_file Hfs.
  unfold ret at 1. rewrite Hread. unfold lift, ret.
  unfold plt_xlabel, plt_ylabel, plt_title, plt_grid, plt_plot, plt_show.
  cbn [xlabel ylabel title grid lines shown new_figure negb app].
  rewrite linspace_length, Nat.eqb_refl. reflexivity.
Qed.

(** [main] on a file with a failing row: the exception escapes and the
    figure is untouched. *)
Lemma run_failure (fs : filesystem) (flag : option string)
      (rows : list row) (e : exn) :
  fs (parse_args flag) = Some rows ->
  read_rows rows [] = inl e ->
  run fs flag = (inl e, new_figure).
Proof.
  intros Hfs Hread. open_file Hfs.
  unfold ret at 1. rewrite Hread. reflexivity.
Qed.

Lemma run_missing_file (fs : filesystem) (flag : option string) :
  fs (parse_args flag) = None ->
  run fs flag = (inl FileNotFoundError, new_figure)
  /\ exit_code (run fs flag) = 1%Z.
Proof.
  intros Hfs. unfold exit_code. open_file Hfs. split; reflexivity.
Qed.

Lemma float_row0_exn (r : row) (e : exn) :
  float_row0 r = inl e ->
  (r = [] /\ e = IndexError) \/ (unparsable r /\ e = ValueError).
Proof.
  destruct r as [|field rest]; simpl.
  - intros H. injection H as <-. left. split; reflexivity.
  - destruct (float_of_string field) eqn:E; [discriminate|].
    intros H. injection H as <-. right. split; [|reflexivity].
    exists field, rest. split; [reflexivity | exact E].
Qed.

Lemma parsed_rows_not_unparsable (rows : list row) (values : list pyfloat) :
  map float_row0 rows = map inr values -> ~ Exists unparsable rows.
Proof.
  revert values. induction rows as [|r rows IH]; intros [|v values] H HE;
    simpl in H; try discriminate.
  - inversion HE.
  - injection H as Hr Hrest. inversion HE as [? ? Hu|? ? Hu]; subst.
    + destruct Hu as (field & rest & -> & Hnone).
      simpl in Hr. rewrite Hnone in Hr. discriminate.
    + exact (IH values Hrest Hu).
Qed.

(** C2. When every row of the input file parses as a number, [main] shows
    one line whose points pair a frequency axis with the row values in file
    order; the axis has exactly as many points as rows were read and is
    evenly spaced from 10 Hz to 20000 Hz.  In particular the rows -10.0,
    -5.0, 0.0 give the three points (10, -10), (10005, -5), (20000, 0). *)
Theorem main_pairs_axis_with_rows
        (fs : filesystem) (flag : option string)
        (rows : list row) (values : list pyfloat) :
  fs (parse_args flag) = Some rows ->
  map float_row0 rows = map inr values ->
  let axis := linspace 10 20000 (List.length rows) in
  run fs flag
  = (inr tt,
     {| xlabel := "Frequency (Hz)"; ylabel := "Power (dB)";
        title := "Transfer Function"; grid := true;
        lines := [combine axis values]; shown := true |}) /\
  List.length axis = List.length rows /\
  List.length values = List.length rows /\
  evenly_spaced 10 20000 axis /\
  (values = [Finite (-10); Finite (-5); Finite 0] ->
   lines (snd (run fs flag))
   = [[(10, Finite (-10)); (10005, Finite (-5)); (20000, Finite 0)]]).
Proof.
  intros Hfs Hrows axis.
  pose proof (map_inr_length rows values Hrows) as Hlen.
  assert (Hrun : run fs flag = (inr tt, chart_of values)).
  { apply (run_success fs flag rows); [exact Hfs|].
    exact (read_rows_ok rows values [] Hrows). }
  split; [|split; [|split; [|split]]].
  - rewrite Hrun. unfold chart_of, axis. rewrite Hlen. reflexivity.
  - apply linspace_length.
  - exact Hlen.
  - apply linspace_evenly_spaced. discriminate.
  - intros ->. rewrite Hrun. reflexivity.
Qed.

(** The theorem above on the file of the three rows -10.0, -5.0, 0.0. *)
Lemma main_pairs_axis_with_rows_witness :
  run (only_data_csv [["-10.0"%string]; ["-5.0"%string]; ["0.0"%string]]) None
  = (inr tt,
     {| xlabel := "Frequency (Hz)"; ylabel := "Power (dB)";
        title := "Transfer Function"; grid := true;
        lines := [combine (linspace 10 20000 3)
                          [Finite (-10); Finite (-5); Finite 0]];
        shown := true |}) /\
  List.length (linspace 10 20000 3) = 3%nat /\
  List.length [Finite (-10); Finite (-5); Finite 0] = 3%nat /\
  evenly_spaced 10 20000 (linspace 10 20000 3) /\
  ([Finite (-10); Finite (-5); Finite 0]
   = [Finite (-10); Finite (-5); Finite 0] ->
   lines (snd (run (only_data_csv
                      [["-10.0"%string]; ["-5.0"%string]; ["0.0"%string]])
                   None))
   = [[(10, Finite (-10)); (10005, Finite (-5)); (20000, Finite 0)]]).
Proof.
  apply (main_pairs_axis_with_rows
           (only_data_csv
              [["-10.0"%string]; ["-5.0"%string]; ["0.0"%string]])
           None
           [["-10.0"%string]; ["-5.0"%string]; ["0.0"%string]]
           [Finite (-10); Finite (-5); Finite 0]); reflexivity.
Defined.

(** C8. When some row of the input file has a first field that does not
    parse as a number, [main] fails: an exception escapes ([ValueError],
    or [IndexError] when a row without fields comes first), no chart is
    shown, the figure is untouched and the exit code is 1, not 0.  When
    every row parses the chart is shown and the exit code is 0. *)
Theorem main_fails_on_unparsable_row
        (fs : filesystem) (flag : option string) (rows : list row) :
  fs (parse_args flag) = Some rows ->
  (Exists unparsable rows ->
   exists e,
     run fs flag = (inl e, new_figure) /\
     (e = ValueError \/ e = IndexError) /\
     (Forall (fun r => r <> []) rows -> e = ValueError) /\
     shown (snd (run fs flag)) = false /\
     lines (snd (run fs flag)) = [] /\
     exit_code (run fs flag) = 1%Z /\
     exit_code (run fs flag) <> 0%Z) /\
  (forall values,
      map float_row0 rows = map inr values ->
      fst (run fs flag) = inr tt /\
      shown (snd (run fs flag)) = true /\
      exit_code (run fs flag) = 0%Z).
Proof.
  intros Hfs. split.
  - intros Hbad.
    destruct (rows_parse_or_split rows)
      as [[values Hv]|(good & bad & rest & values & e & Hsplit & Hg & Hb)].
    + exfalso. exact (parsed_rows_not_unparsable rows values Hv Hbad).
    + exists e.
      assert (Hrun : run fs flag = (inl e, new_figure)).
      { apply (run_failure fs flag rows); [exact Hfs|].
        rewrite Hsplit. exact (read_rows_raises good bad rest values [] e Hg Hb). }
      rewrite Hrun. unfold exit_code. simpl.
      destruct (float_row0_exn bad e Hb) as [[Hnil ->]|[_ ->]].
      * repeat split; try (right; reflexivity); try discriminate.
        intros Hall. exfalso. rewrite Hsplit in Hall.
        apply Forall_app in Hall. destruct Hall as [_ Hall].
        inversion Hall as [|? ? Hne _]. exact (Hne Hnil).
      * repeat split; try (left; reflexivity); try discriminate.
  - intros values Hv.
    rewrite (run_success fs flag rows values Hfs
               (read_rows_ok rows values [] Hv)).
    repeat split.
Qed.

(** The theorem above on a file whose second row starts with [x], and on
    a file of two numeric rows. *)
Lemma main_fails_on_unparsable_row_witness :
  (exists e,
     run (only_data_csv [["1"%string]; ["x"%string; "2"%string]]) None
     = (inl e, new_figure) /\
     (e = ValueError \/ e = IndexError) /\
     (Forall (fun r => r <> []) [["1"%string]; ["x"%string; "2"%string]] ->
      e = ValueError) /\
     shown (snd (run (only_data_csv
                        [["1"%string]; ["x"%string; "2"%string]]) None))
     = false /\
     lines (snd (run (only_data_csv
                        [["1"%string]; ["x"%string; "2"%string]]) None))
     = [] /\
     exit_code (run (only_data_csv
                       [["1"%string]; ["x"%string; "2"%string]]) None)
     = 1%Z /\
     exit_code (run (only_data_csv
                       [["1"%string]; ["x"%string; "2"%string]]) None)
     <> 0%Z) /\
  (fst (run (only_data_csv [["1"%string]; ["2.5"%string]]) None) = inr tt /\
   shown (snd (run (only_data_csv [["1"%string]; ["2.5"%string]]) None))
   = true /\
   exit_code (run (only_data_csv [["1"%string]; ["2.5"%string]]) None)
   = 0%Z).
Proof.
  split.
  - apply (proj1 (main_fails_on_unparsable_row
                    (only_data_csv [["1"%string]; ["x"%string; "2"%string]])
                    None [["1"%string]; ["x"%string; "2"%string]] eq_refl)).
    apply Exists_cons_tl, Exists_cons_hd.
    exists "x"%string, ["2"%string]. split; reflexivity.
  - apply (proj2 (main_fails_on_unparsable_row
                    (only_data_csv [["1"%string]; ["2.5"%string]])
                    None [["1"%string]; ["2.5"%string]] eq_refl)
             [Finite 1; Finite (5 # 2)]).
    reflexivity.
Defined.

(** C9. A file of exactly one numeric row puts its value at the lower
    frequency bound: the axis is the one-point sequence [10], and the one
    point plotted is (10, value). *)
Theorem single_row_at_lower_bound
        (fs : filesystem) (flag : option string)
        (field : string) (rest : list string) (v : pyfloat) :
  fs (parse_args flag) = Some [field :: rest] ->
  float_of_string field = Some v ->
  linspace 10 20000 1 = [10] /\
  run fs flag
  = (inr tt,
     {| xlabel := "Frequency (Hz)"; ylabel := "Power (dB)";
        title := "Transfer Function"; grid := true;
        lines := [[(10, v)]]; shown := true |}).
Proof.
  intros Hfs Hv. split; [reflexivity|].
  rewrite (run_success fs flag [field :: rest] [v] Hfs).
  - reflexivity.
  - simpl. rewrite Hv. reflexivity.
Qed.

(** The theorem above on the one-row file 3.5. *)
Lemma single_row_at_lower_bound_witness :
  linspace 10 20000 1 = [10] /\
  run (only_data_csv [["3.5"%string]]) None
  = (inr tt,
     {| xlabel := "Frequency (Hz)"; ylabel := "Power (dB)";
        title := "Transfer Function"; grid := true;
        lines := [[(10, Finite (7 # 2))]]; shown := true |}).
Proof.
  apply (single_row_at_lower_bound (only_data_csv [["3.5"%string]]) None
           "3.5"%string [] (Finite (7 # 2))); reflexivity.
Defined.

(** C10. On an empty input file (no rows) [main] raises nothing: the data
    list and the frequency axis are both empty, and the chart shown has one
    line without points. *)
Theorem empty_file_shows_empty_chart
        (fs : filesystem) (flag : option string) :
  fs (parse_args flag) = Some [] ->
  read_rows [] [] = inr [] /\
  linspace 10 20000 0 = [] /\
  run fs flag
  = (inr tt,
     {| xlabel := "Frequency (Hz)"; ylabel := "Power (dB)";
        title := "Transfer Function"; grid := true;
        lines := [[]]; shown := true |}) /\
  exit_code (run fs flag) = 0%Z.
Proof.
  intros Hfs. split; [reflexivity|]. split; [reflexivity|].
  rewrite (run_success fs flag [] [] Hfs eq_refl).
  split; reflexivity.
Qed.

(** The theorem above on an empty [data.csv]. *)
Lemma empty_file_shows_empty_chart_witness :
  read_rows [] [] = inr [] /\
  linspace 10 20000 0 = [] /\
  run (only_data_csv []) None
  = (inr tt,
     {| xlabel := "Frequency (Hz)"; ylabel := "Power (dB)";
        title := "Transfer Function"; grid := true;
        lines := [[]]; shown := true |}) /\
  exit_code (run (only_data_csv []) None) = 0%Z.
Proof.
  apply (empty_file_shows_empty_chart (only_data_csv []) None).
  reflexivity.
Defined.

End LazyplotSpec.

(* ================================================================== *)
(** * Properties of the coefficient synthesis *)
(* ================================================================== *)

Module CoefficientSynthesizerSpec.
Import CoefficientSynthesizer QFacts.

Lemma same_signal_refl (xs : list Q) : same_signal xs xs.
Proof. induction xs; constructor; [reflexivity | assumption]. Qed.

Lemma same_signal_trans (xs ys zs : list Q) :
  same_signal xs ys -> same_signal ys zs -> same_signal xs zs.
Proof.
  intros H. revert zs. induction H as [|x y xs ys Hxy _ IH]; intros zs Hz.
  - inversion Hz. constructor.
  - inversion Hz as [|? z ? zs' Hyz Hrest]; subst. constructor.
    + rewrite Hxy. exact Hyz.
    + apply IH, Hrest.
Qed.

Section Taps.
Variables kp ki kd T : Q.
Hypothesis T_nonzero : ~ T == 0.

(** The section with a feedback tap computes the PID response. *)
Lemma pid_taps_response (xs : list Q) :
  forall (st : FilterState) (acc prev : Q),
    x1 st == prev ->
    y1 st == kp * prev + acc + kd * ((prev - x2 st) / T) ->
    same_signal
      (filter_from {| b0 := kp + ki * T + kd / T;
                      b1 := - (kp + 2 * (kd / T));
                      b2 := kd / T; a1 := 1; a2 := 0 |} st xs)
      (pid_from kp ki kd T acc prev xs).
Proof.
  induction xs as [|x0 xs IH]; intros st acc prev Hx Hy; simpl.
  - constructor.
  - constructor.
    + rewrite Hy, Hx. field. exact T_nonzero.
    + apply IH; simpl.
      * reflexivity.
      * rewrite Hy, Hx. field. exact T_nonzero.
Qed.

(** The section without feedback tap computes the PD response. *)
Lemma pd_taps_response (xs : list Q) :
  forall (st : FilterState) (prev : Q),
    x1 st == prev ->
    same_signal
      (filter_from {| b0 := kp + kd / T; b1 := - (kd / T);
                      b2 := 0; a1 := 0; a2 := 0 |} st xs)
      (pd_from kp kd T prev xs).
Proof.
  induction xs as [|x0 xs IH]; intros st prev Hx; simpl.
  - constructor.
  - constructor.
    + rewrite Hx. field. exact T_nonzero.
    + apply IH. reflexivity.
Qed.

(** Without integral gain the running integral stays at zero. *)
Lemma pid_without_integral (xs : list Q) :
  ki == 0 ->
  forall acc prev,
    acc == 0 ->
    same_signal (pid_from kp ki kd T acc prev xs) (pd_from kp kd T prev xs).
Proof.
  intros Hki. induction xs as [|x0 xs IH]; intros acc prev Hacc; simpl.
  - constructor.
  - constructor.
    + rewrite Hki, Hacc. ring.
    + apply IH. rewrite Hki, Hacc. ring.
Qed.

(** Without derivative gain the difference of inputs does not count. *)
Lemma pid_without_derivative (xs : list Q) :
  kd == 0 ->
  forall acc prev,
    same_signal (pid_from kp ki kd T acc prev xs) (pi_from kp ki T acc xs).
Proof.
  intros Hkd. induction xs as [|x0 xs IH]; intros acc prev; simpl.
  - constructor.
  - constructor.
    + rewrite Hkd. ring.
    + apply IH.
Qed.

End Taps.

Lemma same_signal_sym (xs ys : list Q) :
  same_signal xs ys -> same_signal ys xs.
Proof.
  induction 1 as [|x y xs ys Hxy _ IH]; constructor;
    [symmetry; exact Hxy | exact IH].
Qed.

(** The taps of the pass-through hand each input on. *)
Lemma unit_taps_response (xs : list Q) :
  forall st,
    same_signal
      (filter_from {| b0 := 1; b1 := 0; b2 := 0; a1 := 0; a2 := 0 |} st xs)
      xs.
Proof.
  induction xs as [|x0 xs IH]; intros st; simpl; constructor.
  - ring.
  - apply IH.
Qed.

(** With unit gain alone the PID response is the input. *)
Lemma pid_unit_gain (kp ki kd T : Q) (xs : list Q) :
  kp == 1 -> ki == 0 -> kd == 0 ->
  forall acc prev,
    acc == 0 -> same_signal (pid_from kp ki kd T acc prev xs) xs.
Proof.
  intros Hkp Hki Hkd.
  induction xs as [|x0 xs IH]; intros acc prev Hacc; simpl; constructor.
  - rewrite Hkp, Hki, Hkd, Hacc. ring.
  - apply IH. rewrite Hki, Hacc. ring.
Qed.

Lemma accepted_interval (spec : ControllerSpec) (c : FilterCoefficients) :
  compute_coeff spec = inr c -> 0 < sample_interval spec.
Proof.
  unfold compute_coeff. intros H.
  destruct (Qle_bool (sample_interval spec) 0) eqn:E; [discriminate|].
  apply Qle_bool_false_gt, E.
Qed.

Lemma switched_off_iff (spec : ControllerSpec) :
  switched_off spec = true
  <-> Kp spec == 0 /\ Ki spec == 0 /\ Kd spec == 0.
Proof.
  unfold switched_off. rewrite !andb_true_iff, !Qeq_bool_iff. tauto.
Qed.

(** The three shapes of the taps. *)
Lemma compute_coeff_shape (spec : ControllerSpec) (c : FilterCoefficients) :
  compute_coeff spec = inr c ->
  (switched_off spec = true /\
   c = {| b0 := 1; b1 := 0; b2 := 0; a1 := 0; a2 := 0 |}) \/
  (switched_off spec = false /\ Ki spec == 0 /\
   c = {| b0 := Kp spec + Kd spec / sample_interval spec;
          b1 := - (Kd spec / sample_interval spec);
          b2 := 0; a1 := 0; a2 := 0 |}) \/
  (switched_off spec = false /\ ~ Ki spec == 0 /\
   c = {| b0 := Kp spec + Ki spec * sample_interval spec
                + Kd spec / sample_interval spec;
          b1 := - (Kp spec + 2 * (Kd spec / sample_interval spec));
          b2 := Kd spec / sample_interval spec;
          a1 := 1; a2 := 0 |}).
Proof.
  unfold compute_coeff. intros H.
  destruct (Qle_bool (sample_interval spec) 0); [discriminate|].
  destruct (switched_off spec).
  - injection H as <-. left. split; reflexivity.
  - destruct (Qeq_bool (Ki spec) 0) eqn:E; injection H as <-; right.
    + left. apply Qeq_bool_eq in E. repeat split. exact E.
    + right. apply Qeq_bool_neq in E. repeat split. exact E.
Qed.

(** The taps that [compute_coeff] returns make the filter compute the
    backward-difference PID response of the gains in effect. *)
Lemma compute_coeff_response (spec : ControllerSpec)
      (c : FilterCoefficients) (xs : list Q) :
  compute_coeff spec = inr c ->
  same_signal (run_filter c xs) (pid_response spec xs).
Proof.
  intros H. pose proof (positive_nonzero _ (accepted_interval spec c H)) as HT.
  unfold pid_response, gain_in_effect.
  destruct (compute_coeff_shape spec c H)
    as [[Hoff ->]|[(Hon & Hki & ->)|(Hon & Hki & ->)]]; rewrite ?Hoff, ?Hon.
  - apply switched_off_iff in Hoff. destruct Hoff as (_ & Hki & Hkd).
    eapply same_signal_trans; [apply unit_taps_response|].
    apply same_signal_sym, pid_unit_gain;
      [reflexivity | exact Hki | exact Hkd | reflexivity].
  - eapply same_signal_trans.
    + apply pd_taps_response; [exact HT | reflexivity].
    + apply same_signal_sym, pid_without_integral; [exact Hki | reflexivity].
  - apply pid_taps_response; [exact HT | reflexivity |].
    simpl. field. exact HT.
Qed.

Lemma positive_interval_accepted (spec : ControllerSpec) :
  0 < sample_interval spec -> exists c, compute_coeff spec = inr c.
Proof.
  intros H. unfold compute_coeff.
  rewrite (Qle_bool_false_lt _ _ H).
  destruct (switched_off spec); [eexists; reflexivity|].
  destruct (Qeq_bool (Ki spec) 0); eexists; reflexivity.
Qed.

(** C3. For the taps [c] that [compute_coeff] returns: without integral
    gain there is no feedback tap, hence no integral pole, and the filter
    is a pure PD; without derivative gain the tap on the input before last
    is zero and the filter is a pure PI; and with all three gains zero the
    taps are those of the pass-through, the output being the input at each
    step (offset and clamp apart).  The proportional gain of the PD and of
    the PI is [Kp], but for the pass-through, where it is 1. *)
Theorem zero_gains_drop_terms (spec : ControllerSpec) (c : FilterCoefficients) :
  compute_coeff spec = inr c ->
  (Ki spec == 0 ->
   a1 c == 0 /\ a2 c == 0 /\
   forall xs, same_signal (run_filter c xs)
                          (pd_from (gain_in_effect spec) (Kd spec)
                                   (sample_interval spec) 0 xs)) /\
  (Kd spec == 0 ->
   b2 c == 0 /\
   forall xs, same_signal (run_filter c xs)
                          (pi_from (gain_in_effect spec) (Ki spec)
                                   (sample_interval spec) 0 xs)) /\
  (Kp spec == 0 -> Ki spec == 0 -> Kd spec == 0 ->
   gain_in_effect spec = 1 /\
   taps c = [1; 0; 0; 0; 0] /\
   forall xs, same_signal (run_filter c xs) xs) /\
  (~ (Kp spec == 0 /\ Ki spec == 0 /\ Kd spec == 0) ->
   gain_in_effect spec = Kp spec).
Proof.
  intros H.
  pose proof (positive_nonzero _ (accepted_interval spec c H)) as HT.
  pose proof (fun xs => compute_coeff_response spec c xs H) as Hresp.
  pose proof (compute_coeff_shape spec c H) as Hshape.
  split; [|split; [|split]].
  - intros Hki. split; [|split].
    + destruct Hshape as [[_ ->]|[(_ & _ & ->)|(_ & Hn & _)]];
        [reflexivity | reflexivity | contradiction].
    + destruct Hshape as [[_ ->]|[(_ & _ & ->)|(_ & _ & ->)]]; reflexivity.
    + intros xs. eapply same_signal_trans; [apply Hresp|].
      apply pid_without_integral; [exact Hki | reflexivity].
  - intros Hkd. split.
    + destruct Hshape as [[_ ->]|[(_ & _ & ->)|(_ & _ & ->)]]; simpl;
        [reflexivity | reflexivity |].
      rewrite Hkd. field. exact HT.
    + intros xs. eapply same_signal_trans; [apply Hresp|].
      apply pid_without_derivative. exact Hkd.
  - intros Hkp Hki Hkd.
    assert (Hoff : switched_off spec = true)
      by (apply switched_off_iff; repeat split; assumption).
    destruct Hshape as [[_ ->]|[(Hon & _)|(Hon & _)]]; try congruence.
    unfold gain_in_effect. rewrite Hoff. repeat split.
    intros xs. apply unit_taps_response.
  - intros Hn. unfold gain_in_effect.
    destruct (switched_off spec) eqn:E; [|reflexivity].
    apply switched_off_iff in E. contradiction.
Qed.

(** The theorem above for a controller with all gains at zero, at the
    sample interval of a device that samples at 781250 Hz in batches
    of 8. *)
Lemma zero_gains_drop_terms_witness :
  exists c,
    compute_coeff (mkControllerSpec 0 0 0 (781250 / 8) 0 (-2) 2) = inr c /\
    (a1 c == 0 /\ a2 c == 0 /\
     forall xs, same_signal (run_filter c xs)
                            (pd_from 1 0 (781250 / 8) 0 xs)) /\
    (b2 c == 0 /\
     forall xs, same_signal (run_filter c xs)
                            (pi_from 1 0 (781250 / 8) 0 xs)) /\
    (taps c = [1; 0; 0; 0; 0] /\
     forall xs, same_signal (run_filter c xs) xs).
Proof.
  eexists. split; [reflexivity|].
  destruct (zero_gains_drop_terms
              (mkControllerSpec 0 0 0 (781250 / 8) 0 (-2) 2) _ eq_refl)
    as (Hpd & Hpi & Hoff & _).
  split; [apply Hpd; reflexivity|].
  split; [apply Hpi; reflexivity|].
  apply Hoff; reflexivity.
Defined.

(** The gains of [run_conf.py] give a section with its feedback tap. *)
Example taps_of_script :
  exists c,
    compute_coeff (mkControllerSpec (-0.1) (-100) (-2e-05) (781250 / 8)
                                    0 (-2) 2) = inr c /\
    a1 c = 1 /\ a2 c = 0.
Proof. eexists. split; [reflexivity|]. split; reflexivity. Qed.

End CoefficientSynthesizerSpec.


(* ================================================================== *)
(** * Properties of the live plot's refresh policy *)
(* ================================================================== *)

Module LivePlotterSpec.
Import LivePlotter.

Lemma select_length (names : list string) (smp : Sample) (vs : list Q) :
  select names smp = Some vs -> List.length vs = List.length names.
Proof.
  revert vs. induction names as [|name names IH]; intros vs H; simpl in H.
  - injection H as <-. reflexivity.
  - destruct (reading name smp); [|discriminate].
    destruct (select names smp) as [vs'|]; [|discriminate].
    injection H as <-. simpl. f_equal. apply IH. reflexivity.
Qed.

(** ** The windows *)

Lemma push_most_recent (n : nat) (b : list Q) (v : Q) :
  push n b v = most_recent n (b ++ [v]).
Proof.
  unfold push, most_recent. rewrite firstn_rev, rev_involutive. reflexivity.
Qed.

Lemma push_all_windows (n : nat) (bufs : list (list Q)) (vs : list Q) :
  push_all n bufs vs = windows_after n bufs vs.
Proof.
  unfold push_all, windows_after. apply map_ext.
  intros [w v]. apply push_most_recent.
Qed.

Lemma windows_after_length (n : nat) (wins : list (list Q)) (vs : list Q) :
  List.length (windows_after n wins vs)
  = Nat.min (List.length wins) (List.length vs).
Proof. unfold windows_after. rewrite length_map. apply length_combine. Qed.

Lemma windows_through_app (n : nat) (wins : list (list Q))
      (values : list (list Q)) (vs : list Q) :
  windows_through n wins (values ++ [vs])
  = windows_after n (windows_through n wins values) vs.
Proof. unfold windows_through. rewrite fold_left_app. reflexivity. Qed.

Lemma windows_through_length (names : list string) (n : nat)
      (samples : list Sample) (values : list (list Q)) :
  Forall2 (fun smp vs => select names smp = Some vs) samples values ->
  forall wins,
    List.length wins = List.length names ->
    List.length (windows_through n wins values) = List.length names.
Proof.
  induction 1 as [|smp vs samples values Hsel _ IH]; intros wins Hlen; simpl.
  - exact Hlen.
  - apply IH. rewrite windows_after_length, Hlen, (select_length _ _ _ Hsel).
    apply Nat.min_id.
Qed.

(** ** Minimum and maximum *)

Lemma Qmin_cases (a b : Q) : Qmin a b = a \/ Qmin a b = b.
Proof.
  unfold Qmin, GenericMinMax.gmin. destruct (a ?= b); auto.
Qed.

Lemma Qmax_cases (a b : Q) : Qmax a b = a \/ Qmax a b = b.
Proof.
  unfold Qmax, GenericMinMax.gmax. destruct (a ?= b); auto.
Qed.

Lemma fold_min_spec (l : list Q) :
  forall a,
    (fold_left Qmin l a = a \/ In (fold_left Qmin l a) l)
    /\ fold_left Qmin l a <= a
    /\ forall x, In x l -> fold_left Qmin l a <= x.
Proof.
  induction l as [|y l IH]; intros a; simpl.
  - split; [left; reflexivity|]. split; [apply Qle_refl | contradiction].
  - destruct (IH (Qmin a y)) as (Hin & Hle & Hall).
    split; [|split].
    + destruct Hin as [E|Hin]; [|right; right; exact Hin].
      destruct (Qmin_cases a y) as [E'|E']; rewrite E, E'; auto.
    + eapply Qle_trans; [exact Hle | apply Q.le_min_l].
    + intros x [<-|Hx]; [|exact (Hall x Hx)].
      eapply Qle_trans; [exact Hle | apply Q.le_min_r].
Qed.

Lemma fold_max_spec (l : list Q) :
  forall a,
    (fold_left Qmax l a = a \/ In (fold_left Qmax l a) l)
    /\ a <= fold_left Qmax l a
    /\ forall x, In x l -> x <= fold_left Qmax l a.
Proof.
  induction l as [|y l IH]; intros a; simpl.
  - split; [left; reflexivity|]. split; [apply Qle_refl | contradiction].
  - destruct (IH (Qmax a y)) as (Hin & Hle & Hall).
    split; [|split].
    + destruct Hin as [E|Hin]; [|right; right; exact Hin].
      destruct (Qmax_cases a y) as [E'|E']; rewrite E, E'; auto.
    + eapply Qle_trans; [apply Q.le_max_l | exact Hle].
    + intros x [<-|Hx]; [|exact (Hall x Hx)].
      eapply Qle_trans; [apply Q.le_max_r | exact Hle].
Qed.

(** What [extrema] computes are a minimum and a maximum of the window. *)
Lemma extrema_spec (w : list Q) (d : Q * Q) :
  extrema w = Some d -> extrema_of d w.
Proof.
  destruct w as [|x w]; simpl; [discriminate|].
  intros H. injection H as <-. unfold extrema_of, is_min, is_max; simpl.
  destruct (fold_min_spec w x) as (Hin & Hle & Hall).
  destruct (fold_max_spec w x) as (Hin' & Hle' & Hall').
  repeat split.
  - destruct Hin as [->|Hin]; auto.
  - intros y [<-|Hy]; [exact Hle | exact (Hall y Hy)].
  - destruct Hin' as [->|Hin']; auto.
  - intros y [<-|Hy]; [exact Hle' | exact (Hall' y Hy)].
Qed.

Lemma extrema_of_nonempty (d : Q * Q) (w : list Q) :
  extrema_of d w -> exists e, extrema w = Some e.
Proof.
  intros [[Hin _] _]. destruct w as [|x w]; [contradiction|].
  eexists. reflexivity.
Qed.

(** A window has one minimum and one maximum, as numbers. *)
Lemma extrema_of_unique (d d' : Q * Q) (w : list Q) :
  extrema_of d w -> extrema_of d' w -> fst d == fst d' /\ snd d == snd d'.
Proof.
  intros [[Hin Hmin] [Hin' Hmax]] [[Jin Jmin] [Jin' Jmax]].
  split; apply Qle_antisym; auto.
Qed.

(** ** The test of [on_sample] against the data *)

Section Policy.
Variable frac_change : Q -> Q -> Q.
Variable tol : Q.

Lemma exceeds_moved (old : Q * Q) (w : list Q) :
  channel_exceeds frac_change tol old (extrema w) = true ->
  moved_beyond frac_change tol old w.
Proof.
  unfold channel_exceeds.
  destruct (extrema w) as [[lo hi]|] eqn:E; [|discriminate].
  intros H. exists (lo, hi). split; [apply extrema_spec, E|]. simpl.
  apply orb_true_iff in H.
  destruct H as [H|H]; [left|right]; apply negb_true_iff in H;
    apply QFacts.Qle_bool_false_gt, H.
Qed.

Lemma stays_not_exceeds (old : Q * Q) (w : list Q) :
  stays_within frac_change tol old w ->
  channel_exceeds frac_change tol old (extrema w) = false.
Proof.
  intros H. unfold channel_exceeds.
  destruct (extrema w) as [[lo hi]|] eqn:E; [|reflexivity].
  destruct (H (lo, hi) (extrema_spec w (lo, hi) E)) as [Hlo Hhi].
  simpl in Hlo, Hhi. apply Qle_bool_iff in Hlo, Hhi.
  rewrite Hlo, Hhi. reflexivity.
Qed.

Lemma calm_not_exceeds (old : list (Q * Q)) (wins : list (list Q)) :
  Forall2 (stays_within frac_change tol) old wins ->
  any_exceeds frac_change tol old (map extrema wins) = false.
Proof.
  unfold any_exceeds.
  induction 1 as [|o w old wins Ho _ IH]; simpl; [reflexivity|].
  rewrite (stays_not_exceeds o w Ho), IH. reflexivity.
Qed.

Lemma any_exceeds_moved (old : list (Q * Q)) (wins : list (list Q)) :
  any_exceeds frac_change tol old (map extrema wins) = true ->
  Exists (fun ow => moved_beyond frac_change tol (fst ow) (snd ow))
         (combine old wins).
Proof.
  unfold any_exceeds. revert wins.
  induction old as [|o old IH]; intros [|w wins] H; simpl in H;
    try discriminate.
  simpl. apply orb_true_iff in H. destruct H as [H|H].
  - apply Exists_cons_hd. apply exceeds_moved, H.
  - apply Exists_cons_tl, IH, H.
Qed.

Hypothesis frac_respects : respects_equality frac_change.

Lemma moved_exceeds (old : Q * Q) (w : list Q) :
  moved_beyond frac_change tol old w ->
  channel_exceeds frac_change tol old (extrema w) = true.
Proof.
  intros (now & Hnow & Hgt).
  destruct (extrema_of_nonempty now w Hnow) as [[lo hi] E].
  destruct (extrema_of_unique _ _ _ (extrema_spec w _ E) Hnow) as [Hlo Hhi].
  simpl in Hlo, Hhi. unfold channel_exceeds. rewrite E.
  apply orb_true_iff.
  destruct Hgt as [Hgt|Hgt]; [left|right]; apply negb_true_iff;
    apply QFacts.Qle_bool_false_lt.
  - rewrite (frac_respects _ _ _ _ (Qeq_refl (fst old)) Hlo). exact Hgt.
  - rewrite (frac_respects _ _ _ _ (Qeq_refl (snd old)) Hhi). exact Hgt.
Qed.

Lemma moved_any_exceeds (old : list (Q * Q)) (wins : list (list Q)) :
  Exists (fun ow => moved_beyond frac_change tol (fst ow) (snd ow))
         (combine old wins) ->
  any_exceeds frac_change tol old (map extrema wins) = true.
Proof.
  unfold any_exceeds. revert wins.
  induction old as [|o old IH]; intros [|w wins] H; simpl in H;
    try (inversion H; fail).
  simpl. apply orb_true_iff.
  inversion H as [? ? Hm|? ? Hm]; subst.
  - left. apply moved_exceeds, Hm.
  - right. apply IH, Hm.
Qed.

(** What the test finds within tolerance is within tolerance. *)
Lemma computed_stays (old : Q * Q) (w : list Q) :
  channel_exceeds frac_change tol old (extrema w) = false ->
  stays_within frac_change tol old w.
Proof.
  intros H now Hnow.
  destruct (extrema_of_nonempty now w Hnow) as [[lo hi] E].
  destruct (extrema_of_unique _ _ _ (extrema_spec w _ E) Hnow) as [Hlo Hhi].
  simpl in Hlo, Hhi. unfold channel_exceeds in H. rewrite E in H.
  apply orb_false_iff in H. destruct H as [H1 H2].
  apply negb_false_iff, Qle_bool_iff in H1, H2.
  rewrite <- (frac_respects _ _ _ _ (Qeq_refl (fst old)) Hlo).
  rewrite <- (frac_respects _ _ _ _ (Qeq_refl (snd old)) Hhi).
  split; assumption.
Qed.

Lemma stays_within_equiv (o o' : Q * Q) (w : list Q) :
  fst o == fst o' -> snd o == snd o' ->
  stays_within frac_change tol o' w -> stays_within frac_change tol o w.
Proof.
  intros H1 H2 H now Hnow. destruct (H now Hnow) as [Hlo Hhi].
  rewrite (frac_respects _ _ _ _ H1 (Qeq_refl (fst now))).
  rewrite (frac_respects _ _ _ _ H2 (Qeq_refl (snd now))).
  split; assumption.
Qed.

Lemma calm_equiv (n : nat) (old old' : list (Q * Q)) :
  Forall2 (fun o o' => fst o == fst o' /\ snd o == snd o') old old' ->
  forall values wins,
    calm frac_change tol n old' wins values ->
    calm frac_change tol n old wins values.
Proof.
  intros Heq. induction values as [|vs values IH]; intros wins H; simpl.
  - exact I.
  - destruct H as [Hnow Hrest]. split; [|apply IH, Hrest].
    revert Hnow. generalize (windows_after n wins vs) as ws. clear -Heq frac_respects.
    induction Heq as [|o o' old old' [H1 H2] _ IH]; intros ws H;
      inversion H; subst; constructor.
    + eapply stays_within_equiv; eassumption.
    + apply IH. assumption.
Qed.

End Policy.

(** After a redraw the pairs drawn are the extrema of the windows. *)
Lemma redrawn_matches (ref : list (Q * Q)) (wins : list (list Q)) :
  Forall2 extrema_of ref wins ->
  forall old,
    List.length old = List.length wins ->
    Forall2 (fun d r => fst d == fst r /\ snd d == snd r)
            (redrawn old (map extrema wins)) ref.
Proof.
  unfold redrawn.
  induction 1 as [|r w ref wins Hr _ IH]; intros [|o old] Hlen;
    simpl in Hlen; try discriminate; simpl; constructor.
  - destruct (extrema_of_nonempty r w Hr) as [e E]. rewrite E.
    exact (extrema_of_unique _ _ _ (extrema_spec w e E) Hr).
  - apply IH. lia.
Qed.

(** ** One sample, and many *)

Section Run.
Variable frac_change : Q -> Q -> Q.
Variable cfg : PlotConfig.
Hypothesis follows_data : refresh_ylim cfg = true.

Lemma on_sample_calm (st : Plotter) (smp : Sample) (vs : list Q) :
  phase st = Streaming ->
  select (plots cfg) smp = Some vs ->
  Forall2 (stays_within frac_change (tolerance cfg)) (drawn st)
          (windows_after (frame_count cfg) (buffers st) vs) ->
  on_sample frac_change cfg st smp
  = ({| phase := Streaming;
        buffers := windows_after (frame_count cfg) (buffers st) vs;
        drawn := drawn st; redraws := redraws st;
        skipped := skipped st |}, false).
Proof.
  intros Hph Hsel Hcalm. unfold on_sample.
  rewrite Hph, Hsel, follows_data, push_all_windows.
  rewrite (calm_not_exceeds _ _ _ _ Hcalm). reflexivity.
Qed.

Lemma on_sample_moved (st : Plotter) (smp : Sample) (vs : list Q) :
  respects_equality frac_change ->
  phase st = Streaming ->
  select (plots cfg) smp = Some vs ->
  Exists (fun ow => moved_beyond frac_change (tolerance cfg) (fst ow) (snd ow))
         (combine (drawn st)
                  (windows_after (frame_count cfg) (buffers st) vs)) ->
  on_sample frac_change cfg st smp
  = ({| phase := Streaming;
        buffers := windows_after (frame_count cfg) (buffers st) vs;
        drawn := redrawn (drawn st)
                         (map extrema
                              (windows_after (frame_count cfg)
                                             (buffers st) vs));
        redraws := S (redraws st);
        skipped := skipped st |}, true).
Proof.
  intros Hresp Hph Hsel Hmoved. unfold on_sample.
  rewrite Hph, Hsel, follows_data, push_all_windows.
  rewrite (moved_any_exceeds _ _ Hresp _ _ Hmoved). reflexivity.
Qed.

Lemma feed_app (st : Plotter) (xs ys : list Sample) :
  feed frac_change cfg st (xs ++ ys)
  = feed frac_change cfg (feed frac_change cfg st xs) ys.
Proof.
  revert st. induction xs as [|x xs IH]; intros st; simpl;
    [reflexivity | apply IH].
Qed.

(** Calm samples fill the windows and change nothing else. *)
Lemma feed_calm (samples : list Sample) (values : list (list Q)) :
  Forall2 (fun smp vs => select (plots cfg) smp = Some vs) samples values ->
  forall st,
    phase st = Streaming ->
    calm frac_change (tolerance cfg) (frame_count cfg)
         (drawn st) (buffers st) values ->
    feed frac_change cfg st samples
    = {| phase := Streaming;
         buffers := windows_through (frame_count cfg) (buffers st) values;
         drawn := drawn st; redraws := redraws st;
         skipped := skipped st |}.
Proof.
  induction 1 as [|smp vs samples values Hsel _ IH]; intros st Hph Hcalm.
  - destruct st; simpl in *. subst. reflexivity.
  - destruct Hcalm as [Hnow Hrest]. simpl feed.
    rewrite (on_sample_calm st smp vs Hph Hsel Hnow). simpl fst.
    rewrite IH; [reflexivity | reflexivity | exact Hrest].
Qed.

End Run.

(** C7. In the live plot a sample triggers a redraw only while streaming,
    and then only if the limits are fixed ([refresh_ylim] false) or, once
    the sample is in the windows, the minimum or the maximum of the window
    of some plotted channel has moved from the pair last drawn by a
    fractional change above the tolerance; with fixed limits every
    well-formed sample triggers one.  With limits that follow the data,
    samples that keep the minimum and the maximum of every window within
    tolerance of the pairs last drawn trigger no redraw; and when such
    samples are followed by one that moves an extremum of some channel
    beyond tolerance, and then by samples that keep within tolerance of the
    extrema the windows had at that moment, there is exactly one redraw. *)
Theorem redraw_only_beyond_tolerance
        (frac_change : Q -> Q -> Q) (cfg : PlotConfig) (st : Plotter) :
  (forall smp,
      snd (on_sample frac_change cfg st smp) = true ->
      phase st = Streaming /\
      (refresh_ylim cfg = false \/
       exists vs,
         select (plots cfg) smp = Some vs /\
         Exists (fun ow => moved_beyond frac_change (tolerance cfg)
                                        (fst ow) (snd ow))
                (combine (drawn st)
                         (windows_after (frame_count cfg) (buffers st) vs))))
  /\
  (forall smp vs,
      refresh_ylim cfg = false -> phase st = Streaming ->
      select (plots cfg) smp = Some vs ->
      snd (on_sample frac_change cfg st smp) = true /\
      redraws (fst (on_sample frac_change cfg st smp)) = S (redraws st)) /\
  (forall samples values,
      refresh_ylim cfg = true -> phase st = Streaming ->
      Forall2 (fun smp vs => select (plots cfg) smp = Some vs)
              samples values ->
      calm frac_change (tolerance cfg) (frame_count cfg)
           (drawn st) (buffers st) values ->
      redraws (feed frac_change cfg st samples) = redraws st) /\
  (forall before values_before smp vs after values_after reference,
      respects_equality frac_change ->
      refresh_ylim cfg = true -> phase st = Streaming ->
      List.length (buffers st) = List.length (plots cfg) ->
      List.length (drawn st) = List.length (plots cfg) ->
      Forall2 (fun smp vs => select (plots cfg) smp = Some vs)
              before values_before ->
      select (plots cfg) smp = Some vs ->
      Forall2 (fun smp vs => select (plots cfg) smp = Some vs)
              after values_after ->
      calm frac_change (tolerance cfg) (frame_count cfg)
           (drawn st) (buffers st) values_before ->
      Exists (fun ow => moved_beyond frac_change (tolerance cfg)
                                     (fst ow) (snd ow))
             (combine (drawn st)
                      (windows_through (frame_count cfg) (buffers st)
                                       (values_before ++ [vs]))) ->
      Forall2 extrema_of reference
              (windows_through (frame_count cfg) (buffers st)
                               (values_before ++ [vs])) ->
      calm frac_change (tolerance cfg) (frame_count cfg) reference
           (windows_through (frame_count cfg) (buffers st)
                            (values_before ++ [vs]))
           values_after ->
      redraws (feed frac_change cfg st (before ++ smp :: after))
      = S (redraws st)).
Proof.
  split; [|split; [|split]].
  - intros smp H. unfold on_sample in H.
    destruct (phase st) eqn:Hph; try discriminate.
    split; [reflexivity|].
    destruct (select (plots cfg) smp) as [vs|] eqn:Hsel; [|discriminate].
    destruct (refresh_ylim cfg); [right | left; reflexivity].
    cbn [snd] in H. exists vs. split; [reflexivity|].
    rewrite push_all_windows in H. apply any_exceeds_moved, H.
  - intros smp vs Hfixed Hph Hsel. unfold on_sample.
    rewrite Hph, Hsel, Hfixed. split; reflexivity.
  - intros samples values Hauto Hph Hsel Hcalm.
    rewrite (feed_calm frac_change cfg Hauto samples values Hsel st Hph Hcalm).
    reflexivity.
  - intros before values_before smp vs after values_after reference
           Hresp Hauto Hph Hbufs Hdrawn Hsel_b Hsel Hsel_a
           Hcalm_b Hmoved Href Hcalm_a.
    rewrite windows_through_app in Hmoved, Href, Hcalm_a.
    rewrite feed_app.
    rewrite (feed_calm frac_change cfg Hauto before values_before Hsel_b
                       st Hph Hcalm_b).
    simpl feed.
    rewrite (on_sample_moved
               frac_change cfg Hauto
               {| phase := Streaming;
                  buffers := windows_through (frame_count cfg) (buffers st)
                                             values_before;
                  drawn := drawn st; redraws := redraws st;
                  skipped := skipped st |}
               smp vs Hresp eq_refl Hsel Hmoved).
    cbn [fst buffers drawn redraws skipped].
    rewrite (feed_calm frac_change cfg Hauto after values_after Hsel_a);
      [reflexivity | reflexivity |].
    cbn [buffers drawn].
    apply (calm_equiv frac_change (tolerance cfg) Hresp (frame_count cfg)
                      _ reference); [|exact Hcalm_a].
    apply redrawn_matches; [exact Href|].
    rewrite windows_after_length, Hdrawn.
    rewrite (windows_through_length (plots cfg) (frame_count cfg)
               before values_before Hsel_b (buffers st) Hbufs).
    rewrite (select_length _ _ _ Hsel). symmetry. apply Nat.min_id.
Qed.

Lemma relative_change_respects : respects_equality relative_change.
Proof.
  intros a a' b b' Ha Hb. unfold relative_change.
  rewrite Ha, Hb. reflexivity.
Qed.

(** Proves that a concrete window stays within tolerance by running the
    test on it. *)
Ltac stays_by_computation :=
  apply (computed_stays relative_change _ relative_change_respects);
  vm_compute; reflexivity.

(** The theorem above on the plot of [run_conf.py] over a window of five
    frames: a sample inside the drawn range, one whose first channel goes
    far above it, one inside the new range; and the same plot with fixed
    limits. *)
Lemma redraw_only_beyond_tolerance_witness :
  redraws (feed relative_change (RunConf.plot 5) RunConf.plot_running
                [RunConf.sample_of 1.5 1.5 1.5 1.5])
  = redraws RunConf.plot_running /\
  redraws (feed relative_change (RunConf.plot 5) RunConf.plot_running
                ([RunConf.sample_of 1.5 1.5 1.5 1.5]
                   ++ RunConf.sample_of 3 1.5 1.5 1.5
                   :: [RunConf.sample_of 1.9 1.9 1.9 1.9]))
  = S (redraws RunConf.plot_running) /\
  (snd (on_sample relative_change
                  (mkPlotConfig (plots (RunConf.plot 5)) auto auto time_ms
                                0.2 false 5)
                  RunConf.plot_running
                  (RunConf.sample_of 1.5 1.5 1.5 1.5)) = true /\
   redraws (fst (on_sample relative_change
                           (mkPlotConfig (plots (RunConf.plot 5)) auto auto
                                         time_ms 0.2 false 5)
                           RunConf.plot_running
                           (RunConf.sample_of 1.5 1.5 1.5 1.5)))
   = S (redraws RunConf.plot_running)).
Proof.
  split; [|split].
  - apply (proj1 (proj2 (proj2 (redraw_only_beyond_tolerance
                                  relative_change (RunConf.plot 5)
                                  RunConf.plot_running)))
             [RunConf.sample_of 1.5 1.5 1.5 1.5] [[1.5; 1.5; 1.5; 1.5]]).
    + reflexivity.
    + reflexivity.
    + repeat constructor.
    + split; [|exact I].
      repeat (constructor; [stays_by_computation|]). constructor.
  - apply (proj2 (proj2 (proj2 (redraw_only_beyond_tolerance
                                  relative_change (RunConf.plot 5)
                                  RunConf.plot_running)))
             [RunConf.sample_of 1.5 1.5 1.5 1.5] [[1.5; 1.5; 1.5; 1.5]]
             (RunConf.sample_of 3 1.5 1.5 1.5) [3; 1.5; 1.5; 1.5]
             [RunConf.sample_of 1.9 1.9 1.9 1.9] [[1.9; 1.9; 1.9; 1.9]]
             [(1, 3); (1, 2); (1, 2); (1, 2)]).
    + exact relative_change_respects.
    + reflexivity.
    + reflexivity.
    + reflexivity.
    + reflexivity.
    + repeat constructor.
    + reflexivity.
    + repeat constructor.
    + split; [|exact I].
      repeat (constructor; [stays_by_computation|]). constructor.
    + apply Exists_cons_hd.
      apply (exceeds_moved relative_change). vm_compute. reflexivity.
    + repeat (constructor; [apply extrema_spec; reflexivity|]). constructor.
    + split; [|exact I].
      repeat (constructor; [stays_by_computation|]). constructor.
  - apply (proj1 (proj2 (redraw_only_beyond_tolerance
                           relative_change
                           (mkPlotConfig (plots (RunConf.plot 5)) auto auto
                                         time_ms 0.2 false 5)
                           RunConf.plot_running))
             (RunConf.sample_of 1.5 1.5 1.5 1.5) [1.5; 1.5; 1.5; 1.5]);
      reflexivity.
Defined.

End LivePlotterSpec.

(* ================================================================== *)
(** * Further properties of [lazyplot.py] *)
(* ================================================================== *)

Module LazyplotExtra.
Import PyFloat Numpy NumpySpec Lazyplot LazyplotSpec LazyplotVocabulary.

(** The loop sees a row through [float(row[0])] alone. *)
Lemma read_rows_ext (rows rows' : list row) :
  map float_row0 rows = map float_row0 rows' ->
  forall data, read_rows rows data = read_rows rows' data.
Proof.
  revert rows'. induction rows as [|r rows IH]; intros [|r' rows'] H data;
    simpl in H; try discriminate.
  - reflexivity.
  - injection H as Hr Hrest. simpl. rewrite Hr.
    destruct (float_row0 r') as [e|v]; [reflexivity|].
    apply IH, Hrest.
Qed.

Lemma run_ext (fs fs' : filesystem) (flag flag' : option string)
      (rows rows' : list row) :
  fs (parse_args flag) = Some rows ->
  fs' (parse_args flag') = Some rows' ->
  map float_row0 rows = map float_row0 rows' ->
  run fs flag = run fs' flag'.
Proof.
  intros Hfs Hfs' H.
  pose proof (read_rows_ext rows rows' H []) as Hread.
  destruct (read_rows rows []) as [e|data] eqn:E.
  - rewrite (run_failure fs flag rows e Hfs E).
    rewrite (run_failure fs' flag' rows' e Hfs' (eq_sym Hread)). reflexivity.
  - rewrite (run_success fs flag rows data Hfs E).
    rewrite (run_success fs' flag' rows' data Hfs' (eq_sym Hread)).
    reflexivity.
Qed.

Lemma float_row0_hd (r r' : row) :
  hd_error r = hd_error r' -> float_row0 r = float_row0 r'.
Proof.
  destruct r as [|f r], r' as [|f' r']; simpl; intros H;
    try discriminate; [reflexivity|].
  injection H as ->. reflexivity.
Qed.

Lemma map_float_row0_hd (rows rows' : list row) :
  map (@hd_error string) rows = map (@hd_error string) rows' ->
  map float_row0 rows = map float_row0 rows'.
Proof.
  revert rows'. induction rows as [|r rows IH]; intros [|r' rows'] H;
    simpl in H; try discriminate.
  - reflexivity.
  - injection H as Hr Hrest. simpl.
    rewrite (float_row0_hd r r' Hr), (IH rows' Hrest). reflexivity.
Qed.

(** X1. Only the first field of each row is read: two files whose rows
    have the same first fields, row by row, give the same outcome, chart or
    exception, whatever their other fields. *)
Theorem only_first_field_read
        (fs fs' : filesystem) (flag flag' : option string)
        (rows rows' : list row) :
  fs (parse_args flag) = Some rows ->
  fs' (parse_args flag') = Some rows' ->
  map (@hd_error string) rows = map (@hd_error string) rows' ->
  run fs flag = run fs' flag'.
Proof.
  intros Hfs Hfs' H. apply (run_ext fs fs' flag flag' rows rows' Hfs Hfs').
  apply map_float_row0_hd, H.
Qed.

(** The theorem above on two files that differ in their second columns. *)
Lemma only_first_field_read_witness :
  run (only_data_csv [["1"%string; "a"%string]; ["2"%string]]) None
  = run (only_data_csv [["1"%string];
                        ["2"%string; "zzz"%string; "9"%string]]) None.
Proof.
  apply (only_first_field_read
           (only_data_csv [["1"%string; "a"%string]; ["2"%string]])
           (only_data_csv [["1"%string];
                           ["2"%string; "zzz"%string; "9"%string]])
           None None
           [["1"%string; "a"%string]; ["2"%string]]
           [["1"%string]; ["2"%string; "zzz"%string; "9"%string]]);
    reflexivity.
Defined.

Lemma read_rows_exn (rows : list row) (data : list pyfloat) (e : exn) :
  read_rows rows data = inl e -> e = IndexError \/ e = ValueError.
Proof.
  revert data. induction rows as [|r rows IH]; intros data H; simpl in H.
  - discriminate.
  - destruct (float_row0 r) as [e'|v] eqn:Er.
    + injection H as <-.
      destruct (float_row0_exn r e' Er) as [[_ ->]|[_ ->]]; auto.
    + exact (IH _ H).
Qed.

(** Every run ends in one of two ways. *)
Lemma run_cases (fs : filesystem) (flag : option string) :
  (fs (parse_args flag) = None /\
   run fs flag = (inl FileNotFoundError, new_figure)) \/
  (exists rows values,
      fs (parse_args flag) = Some rows /\
      map float_row0 rows = map inr values /\
      run fs flag = (inr tt, chart_of values)) \/
  (exists rows e,
      fs (parse_args flag) = Some rows /\
      (e = IndexError \/ e = ValueError) /\
      run fs flag = (inl e, new_figure)).
Proof.
  destruct (fs (parse_args flag)) as [rows|] eqn:Hfs.
  - right.
    destruct (rows_parse_or_split rows)
      as [[values Hv]|(good & bad & rest & values & e & Hsplit & Hg & Hb)].
    + left. exists rows, values. repeat split; try assumption.
      apply (run_success fs flag rows values Hfs).
      exact (read_rows_ok rows values [] Hv).
    + right. exists rows, e.
      assert (Hread : read_rows rows [] = inl e)
        by (rewrite Hsplit;
            exact (read_rows_raises good bad rest values [] e Hg Hb)).
      repeat split.
      * exact (read_rows_exn rows [] e Hread).
      * exact (run_failure fs flag rows e Hfs Hread).
  - left. split; [reflexivity|]. apply run_missing_file, Hfs.
Qed.



(** X3. The first row that fails decides the outcome: its exception
    escapes ([IndexError] for a row without fields, [ValueError] for a first
    field that is no number), nothing is plotted, and the rows after it are
    never read, so that they may hold anything. *)
Theorem first_failing_row_decides
        (fs : filesystem) (flag : option string)
        (good : list row) (bad : row) (rest : list row)
        (values : list pyfloat) (e : exn) :
  fs (parse_args flag) = Some (good ++ bad :: rest) ->
  map float_row0 good = map inr values ->
  float_row0 bad = inl e ->
  run fs flag = (inl e, new_figure) /\
  (bad = [] -> e = IndexError) /\
  (bad <> [] -> e = ValueError) /\
  run fs flag = run (only_data_csv (good ++ [bad])) None.
Proof.
  intros Hfs Hg Hb.
  assert (Hrun : run fs flag = (inl e, new_figure)).
  { apply (run_failure fs flag (good ++ bad :: rest) e Hfs).
    exact (read_rows_raises good bad rest values [] e Hg Hb). }
  split; [exact Hrun|].
  destruct (float_row0_exn bad e Hb) as [[Hnil ->]|[Hu ->]].
  - split; [reflexivity|]. split; [intros Hne; contradiction|].
    rewrite Hrun. symmetry.
    apply (run_failure _ None (good ++ [bad]) IndexError eq_refl).
    exact (read_rows_raises good bad [] values [] IndexError Hg Hb).
  - destruct Hu as (field & others & -> & _).
    split; [discriminate|]. split; [reflexivity|].
    rewrite Hrun. symmetry.
    apply (run_failure _ None (good ++ [field :: others]) ValueError eq_refl).
    exact (read_rows_raises good (field :: others) [] values [] ValueError
                            Hg Hb).
Qed.

(** The theorem above on a file with a blank line between two numbers. *)
Lemma first_failing_row_decides_witness :
  run (only_data_csv [["1"%string]; []; ["2"%string]]) None
  = (inl IndexError, new_figure) /\
  (@nil string = [] -> IndexError = IndexError) /\
  (@nil string <> [] -> IndexError = ValueError) /\
  run (only_data_csv [["1"%string]; []; ["2"%string]]) None
  = run (only_data_csv ([["1"%string]] ++ [[]])) None.
Proof.
  apply (first_failing_row_decides
           (only_data_csv [["1"%string]; []; ["2"%string]]) None
           [["1"%string]] [] [["2"%string]] [Finite 1] IndexError);
    reflexivity.
Defined.

(** X4. The process either builds the whole chart and shows it, or
    leaves the figure untouched: never a figure with labels or points that
    is not shown, and [plt.plot] never rejects the axis for its length.
    Its exit status is 0 exactly when the chart was shown or the help was
    asked for, 1 exactly when an exception escaped from [main], and 2
    exactly when the command line was rejected. *)
Theorem chart_shown_or_figure_untouched
        (fs : filesystem) (c : command_line) :
  ((exists values, snd (script fs c) = chart_of values) \/
   snd (script fs c) = new_figure) /\
  (fst (script fs c) = 0%Z
   <-> shown (snd (script fs c)) = true \/ c = Help) /\
  (fst (script fs c) = 1%Z
   <-> exists flag e, c = Accepted flag /\ fst (run fs flag) = inl e) /\
  (fst (script fs c) = 2%Z <-> c = Rejected) /\
  (fst (script fs c) = 0%Z \/ fst (script fs c) = 1%Z
   \/ fst (script fs c) = 2%Z).
Proof.
  destruct c as [flag| |]; simpl.
  - destruct (run_cases fs flag)
      as [[_ Hrun]|[(rows & values & _ & _ & Hrun)|(rows & e & _ & _ & Hrun)]];
      rewrite Hrun; unfold exit_code; simpl.
    + split; [right; reflexivity|].
      repeat split; try (intros; discriminate); auto.
      * intros [H|H]; discriminate.
      * intros _. exists flag, FileNotFoundError. rewrite Hrun. auto.
    + split; [left; eexists; reflexivity|].
      repeat split; try (intros; discriminate); auto.
      intros (flag' & e & Hc & He). injection Hc as <-.
      rewrite Hrun in He. discriminate.
    + split; [right; reflexivity|].
      repeat split; try (intros; discriminate); auto.
      * intros [H|H]; discriminate.
      * intros _. exists flag, e. rewrite Hrun. auto.
  - split; [right; reflexivity|].
    repeat split; try (intros; discriminate); auto.
    intros (flag & e & Hc & _). discriminate.
  - split; [right; reflexivity|].
    repeat split; try (intros; discriminate); auto.
    + intros [H|H]; discriminate.
    + intros (flag & e & Hc & _). discriminate.
Qed.

Lemma chart_points (values : list pyfloat) :
  map fst (combine (linspace 10 20000 (List.length values)) values)
  = linspace 10 20000 (List.length values)
  /\ map snd (combine (linspace 10 20000 (List.length values)) values)
     = values.
Proof.
  pose proof (linspace_length 10 20000 (List.length values)) as Hlen.
  revert Hlen. generalize (linspace 10 20000 (List.length values)) as axis.
  induction values as [|v values IH]; intros [|x axis] Hlen;
    simpl in Hlen; try discriminate.
  - split; reflexivity.
  - injection Hlen as Hlen. destruct (IH axis Hlen) as [H1 H2].
    simpl. rewrite H1, H2. split; reflexivity.
Qed.

(** X5. In the chart of a file that parses, row [i] of [n] (counted from
    0, with at least two rows) is plotted at the frequency
    [10 + i * 19990 / (n - 1)], so that frequencies rise strictly from each
    row to the next, and the values plotted are the rows' values in file
    order. *)
Theorem frequencies_rise_with_rows
        (fs : filesystem) (flag : option string)
        (rows : list row) (values : list pyfloat) :
  fs (parse_args flag) = Some rows ->
  map float_row0 rows = map inr values ->
  exists pts,
    lines (snd (run fs flag)) = [pts] /\
    List.length pts = List.length rows /\
    map snd pts = values /\
    (forall i, (2 <= List.length rows)%nat -> (i < List.length rows)%nat ->
               fst (nth i pts (0, NaN))
               == 10 + inject_Z (Z.of_nat i)
                       * (19990 / inject_Z (Z.of_nat (List.length rows - 1))))
    /\ rising pts.
Proof.
  intros Hfs Hrows.
  pose proof (map_inr_length rows values Hrows) as Hlen.
  rewrite (run_success fs flag rows values Hfs
             (read_rows_ok rows values [] Hrows)).
  exists (combine (linspace 10 20000 (List.length values)) values).
  pose proof (linspace_length 10 20000 (List.length values)) as Hax.
  assert (Hfst : forall i,
             fst (nth i (combine (linspace 10 20000 (List.length values))
                                 values) (0, NaN))
             = nth i (linspace 10 20000 (List.length values)) 0).
  { intros i. rewrite combine_nth by exact Hax. reflexivity. }
  split; [reflexivity|].
  split; [rewrite length_combine, Hax, Hlen; apply Nat.min_id|].
  split; [apply chart_points|].
  split.
  - intros i Hn Hi. rewrite Hfst, Hlen.
    rewrite linspace_nth by assumption.
    setoid_replace (20000 - 10) with 19990 by ring. reflexivity.
  - intros i Hi. rewrite length_combine, Hax, Nat.min_id in Hi.
    rewrite !Hfst.
    destruct (linspace_evenly_spaced 10 20000 (List.length values))
      as (_ & _ & _ & Hstep); [discriminate|].
    rewrite linspace_length in Hstep. specialize (Hstep i Hi).
    assert (Hpos : 0 < (20000 - 10)
                       / inject_Z (Z.of_nat (List.length values - 1))).
    { unfold Qdiv. apply Qmult_lt_0_compat; [reflexivity|].
      apply Qinv_lt_0_compat, inject_nat_pos. lia. }
    lra.
Qed.

(** The theorem above on the file of the three rows -10.0, -5.0, 0.0. *)
Lemma frequencies_rise_with_rows_witness :
  exists pts,
    lines (snd (run (only_data_csv
                       [["-10.0"%string]; ["-5.0"%string]; ["0.0"%string]])
                    None)) = [pts] /\
    List.length pts = 3%nat /\
    map snd pts = [Finite (-10); Finite (-5); Finite 0] /\
    (forall i, (2 <= 3)%nat -> (i < 3)%nat ->
               fst (nth i pts (0, NaN))
               == 10 + inject_Z (Z.of_nat i)
                       * (19990 / inject_Z (Z.of_nat (3 - 1))))
    /\ rising pts.
Proof.
  apply (frequencies_rise_with_rows
           (only_data_csv [["-10.0"%string]; ["-5.0"%string]; ["0.0"%string]])
           None
           [["-10.0"%string]; ["-5.0"%string]; ["0.0"%string]]
           [Finite (-10); Finite (-5); Finite 0]); reflexivity.
Defined.

(** X6. A file cut short still plots: when the rows of a file all parse,
    so do the first rows of it taken alone, and the values plotted are the
    first values of the whole file, in order (against an axis of their
    own). *)
Theorem truncated_file_plots
        (fs fs' : filesystem) (flag flag' : option string)
        (kept dropped : list row) (values : list pyfloat) :
  fs (parse_args flag) = Some (kept ++ dropped) ->
  fs' (parse_args flag') = Some kept ->
  run fs flag = (inr tt, chart_of values) ->
  run fs' flag'
  = (inr tt, chart_of (firstn (List.length kept) values)).
Proof.
  intros Hfs Hfs' Hrun.
  destruct (rows_parse_or_split (kept ++ dropped))
    as [[vs Hv]|(good & bad & rest & vs & e & Hsplit & Hg & Hb)].
  - assert (Hvs : vs = values).
    { rewrite (run_success fs flag _ vs Hfs (read_rows_ok _ vs [] Hv)) in Hrun.
      injection Hrun as Hrun. apply (f_equal (map snd)) in Hrun.
      rewrite (proj2 (chart_points vs)), (proj2 (chart_points values)) in Hrun.
      exact Hrun. }
    subst vs.
    apply (run_success fs' flag' kept _ Hfs').
    apply (read_rows_ok kept (firstn (List.length kept) values) []).
    rewrite <- firstn_map, <- Hv, map_app.
    rewrite <- (length_map float_row0 kept).
    rewrite firstn_app, firstn_all, Nat.sub_diag. simpl.
    rewrite app_nil_r. reflexivity.
  - exfalso.
    rewrite (run_failure fs flag _ e Hfs) in Hrun; [discriminate|].
    rewrite Hsplit. exact (read_rows_raises good bad rest vs [] e Hg Hb).
Qed.

(** The theorem above on a file of three rows, cut after the second. *)
Lemma truncated_file_plots_witness :
  run (only_data_csv [["1"%string]; ["2"%string]]) None
  = (inr tt, chart_of (firstn 2 [Finite 1; Finite 2; Finite 3])).
Proof.
  apply (truncated_file_plots
           (only_data_csv [["1"%string]; ["2"%string]; ["3"%string]])
           (only_data_csv [["1"%string]; ["2"%string]])
           None None [["1"%string]; ["2"%string]] [["3"%string]]
           [Finite 1; Finite 2; Finite 3]); reflexivity.
Defined.

(** X7. The frequencies plotted depend on the number of rows alone: two
    files of as many rows, all of which parse, are plotted against the same
    frequencies, whatever their values. *)
Theorem axis_depends_on_row_count
        (fs fs' : filesystem) (flag flag' : option string)
        (rows rows' : list row) (values values' : list pyfloat) :
  fs (parse_args flag) = Some rows ->
  fs' (parse_args flag') = Some rows' ->
  map float_row0 rows = map inr values ->
  map float_row0 rows' = map inr values' ->
  List.length rows = List.length rows' ->
  map (map fst) (lines (snd (run fs flag)))
  = map (map fst) (lines (snd (run fs' flag')))
  /\ map (map fst) (lines (snd (run fs flag)))
     = [linspace 10 20000 (List.length rows)].
Proof.
  intros Hfs Hfs' Hv Hv' Hlen.
  rewrite (run_success fs flag rows values Hfs (read_rows_ok _ _ [] Hv)).
  rewrite (run_success fs' flag' rows' values' Hfs' (read_rows_ok _ _ [] Hv')).
  simpl.
  rewrite (proj1 (chart_points values)), (proj1 (chart_points values')).
  rewrite (map_inr_length rows values Hv), (map_inr_length rows' values' Hv').
  rewrite Hlen. split; reflexivity.
Qed.

(** The theorem above on two files of two rows each. *)
Lemma axis_depends_on_row_count_witness :
  map (map fst)
      (lines (snd (run (only_data_csv [["1"%string]; ["2"%string]]) None)))
  = map (map fst)
        (lines (snd (run (only_data_csv [["-7.5"%string]; ["nan"%string]])
                         None)))
  /\ map (map fst)
         (lines (snd (run (only_data_csv [["1"%string]; ["2"%string]]) None)))
     = [linspace 10 20000 2].
Proof.
  apply (axis_depends_on_row_count
           (only_data_csv [["1"%string]; ["2"%string]])
           (only_data_csv [["-7.5"%string]; ["nan"%string]])
           None None
           [["1"%string]; ["2"%string]] [["-7.5"%string]; ["nan"%string]]
           [Finite 1; Finite 2] [Finite (-15 # 2); NaN]); reflexivity.
Defined.

Lemma list_ascii_of_string_app (a b : string) :
  list_ascii_of_string (String.append a b)
  = list_ascii_of_string a ++ list_ascii_of_string b.
Proof.
  induction a as [|c a IH]; simpl; [reflexivity | rewrite IH; reflexivity].
Qed.

Lemma lstrip_blank_app (p l : list ascii) :
  Forall (fun c => is_space c = true) p -> lstrip (p ++ l) = lstrip l.
Proof.
  induction 1 as [|c p Hc _ IH]; simpl; [reflexivity|].
  rewrite Hc. exact IH.
Qed.

Lemma lstrip_app_blank (l p : list ascii) :
  Forall (fun c => is_space c = true) p ->
  lstrip (l ++ p) = lstrip l ++ p
  \/ (lstrip l = [] /\ lstrip (l ++ p) = []).
Proof.
  intros Hp. induction l as [|c l IH]; simpl.
  - right. split; [reflexivity|].
    rewrite <- (app_nil_r p). rewrite lstrip_blank_app by exact Hp.
    reflexivity.
  - destruct (is_space c); [exact IH | left; reflexivity].
Qed.

(** White space around a text is dropped before it is parsed. *)
Lemma strip_padded (p1 l p2 : list ascii) :
  Forall (fun c => is_space c = true) p1 ->
  Forall (fun c => is_space c = true) p2 ->
  strip (p1 ++ l ++ p2) = strip l.
Proof.
  intros H1 H2. unfold strip. rewrite lstrip_blank_app by exact H1.
  destruct (lstrip_app_blank l p2 H2) as [E|[E1 E2]].
  - rewrite E, rev_app_distr.
    rewrite lstrip_blank_app by (apply Forall_rev; exact H2). reflexivity.
  - rewrite E1, E2. reflexivity.
Qed.

Lemma space_below_127 (c : ascii) :
  is_space c = true -> (nat_of_ascii c <? 127)%nat = true.
Proof.
  unfold is_space. intros H. apply Nat.ltb_lt.
  apply orb_true_iff in H. destruct H as [H|H].
  - apply andb_true_iff in H. destruct H as [_ H].
    apply Nat.leb_le in H. lia.
  - apply Nat.eqb_eq in H. lia.
Qed.

Lemma blanks_ascii (p : list ascii) :
  Forall (fun c => is_space c = true) p -> forallb is_ascii p = true.
Proof.
  induction 1 as [|c p Hc _ IH]; simpl; [reflexivity|].
  rewrite IH, andb_true_r. unfold is_ascii.
  apply space_below_127, Nat.ltb_lt in Hc. apply Nat.ltb_lt. lia.
Qed.

Lemma transform_blank_app (p l : list ascii) :
  Forall (fun c => is_space c = true) p ->
  transform (p ++ l) = p ++ transform l.
Proof.
  induction 1 as [|c p Hc _ IH]; simpl; [reflexivity|].
  rewrite (space_below_127 c Hc), IH. reflexivity.
Qed.

(** Text after the place where [transform] ends a text is lost; before it,
    blanks stay as they are. *)
Lemma transform_app_blank (l p : list ascii) :
  Forall (fun c => is_space c = true) p ->
  transform (l ++ p) = transform l ++ p \/ transform (l ++ p) = transform l.
Proof.
  intros Hp. induction l as [|c l IH]; simpl.
  - left. rewrite <- (app_nil_r p) at 1.
    rewrite transform_blank_app by exact Hp. simpl. apply app_nil_r.
  - destruct (nat_of_ascii c <? 127)%nat.
    + destruct IH as [->| ->]; [left | right]; reflexivity.
    + destruct (is_unicode_space c).
      * destruct IH as [->| ->]; [left | right]; reflexivity.
      * right. reflexivity.
Qed.

Lemma to_ascii_padded (p1 l p2 : list ascii) :
  Forall (fun c => is_space c = true) p1 ->
  Forall (fun c => is_space c = true) p2 ->
  strip (to_ascii (p1 ++ l ++ p2)) = strip (to_ascii l).
Proof.
  intros H1 H2. unfold to_ascii.
  rewrite !forallb_app, (blanks_ascii p1 H1), (blanks_ascii p2 H2).
  rewrite andb_true_r. simpl andb.
  destruct (forallb is_ascii l).
  - apply strip_padded; assumption.
  - rewrite transform_blank_app by exact H1.
    destruct (transform_app_blank l p2 H2) as [->| ->].
    + apply strip_padded; assumption.
    + rewrite <- (app_nil_r (transform l)) at 1.
      apply strip_padded; [exact H1 | constructor].
Qed.

Lemma float_of_string_padded (pre field post : string) :
  blank pre -> blank post ->
  float_of_string (String.append pre (String.append field post))
  = float_of_string field.
Proof.
  intros H1 H2. unfold float_of_string.
  rewrite !list_ascii_of_string_app, (to_ascii_padded _ _ _ H1 H2).
  reflexivity.
Qed.

Lemma padded_float_row0 (rows rows' : list row) :
  Forall2 padded rows rows' ->
  map float_row0 rows = map float_row0 rows'.
Proof.
  induction 1 as [|r r' rows rows' Hp _ IH]; simpl; [reflexivity|].
  rewrite IH. f_equal.
  destruct Hp as [[-> ->]|(pre & field & post & rest & rest' & H1 & H2 & -> & ->)].
  - reflexivity.
  - simpl. rewrite (float_of_string_padded pre field post H1 H2).
    reflexivity.
Qed.

(** X8. White space around the first field of a row does not count:
    [float] drops tabs, line feeds, vertical tabs, form feeds, carriage
    returns and spaces at both ends, so that a file and the same file with
    its first fields padded by such characters (and any other fields after
    them) give the same outcome. *)
Theorem padding_is_ignored
        (fs fs' : filesystem) (flag flag' : option string)
        (rows rows' : list row) :
  fs (parse_args flag) = Some rows ->
  fs' (parse_args flag') = Some rows' ->
  Forall2 padded rows rows' ->
  run fs flag = run fs' flag'.
Proof.
  intros Hfs Hfs' H.
  apply (run_ext fs fs' flag flag' rows rows' Hfs Hfs').
  apply padded_float_row0, H.
Qed.

(** The theorem above on a file of two rows and its padded copy. *)
Lemma padding_is_ignored_witness :
  run (only_data_csv [["1.5"%string]; ["2"%string]]) None
  = run (only_data_csv [[" 1.5"%string]; ["2  "%string; "x"%string]]) None.
Proof.
  apply (padding_is_ignored
           (only_data_csv [["1.5"%string]; ["2"%string]])
           (only_data_csv [[" 1.5"%string]; ["2  "%string; "x"%string]])
           None None
           [["1.5"%string]; ["2"%string]]
           [[" 1.5"%string]; ["2  "%string; "x"%string]]);
    [reflexivity | reflexivity |].
  constructor; [|constructor; [|constructor]].
  - right. exists " "%string, "1.5"%string, ""%string, [], [].
    repeat split; repeat constructor.
  - right. exists ""%string, "2"%string, "  "%string, [], ["x"%string].
    repeat split; repeat constructor.
Defined.

End LazyplotExtra.
